(** * roleChaining.py: IAM role-chaining discovery

    A shallow embedding of [src/roleChaining.py].  Policy documents are the
    Python values that boto3 hands back (parsed JSON); the two policy
    evaluators are pure functions over them that may raise; the discovery
    loop runs in a small monad that records console output and API calls. *)

From stdpp Require Import gmap strings list fin_maps.
From Stdlib Require Import ZArith String Ascii.

Set Warnings "-register-all".
Local Open Scope string_scope.
Local Open Scope list_scope.

(** ** Python values *)

(** What [json.loads] produces.  Numbers are only ever observed here as
    "not iterable, no [.get]", so their payload is kept as an integer. *)
Inductive json : Type :=
  | JNull
  | JBool (b : bool)
  | JNum (z : Z)
  | JStr (s : string)
  | JList (l : list json)
  | JObj (m : gmap string json).

(** A dict literal. *)
Definition obj (kvs : list (string * json)) : json := JObj (list_to_map kvs).

(** The exceptions the program can meet. *)
Inductive exn : Type :=
  | AttributeError
  | TypeError
  | KeyError
  | ClientError (code operation message : string)
  | ParamValidationError
  | OSError (message : string)
  | SystemExit (status : Z).

Inductive result (A : Type) : Type :=
  | Ok (a : A)
  | Raise (e : exn).
Arguments Ok {A} a.
Arguments Raise {A} e.

#[export] Instance result_ret : MRet result := @Ok.
#[export] Instance result_bind : MBind result := fun A B f r =>
  match r with
  | Ok a => f a
  | Raise e => Raise e
  end.

(** ** Python operators on these values *)

(** [needle in hay] on two [str]: substring search. *)
Fixpoint str_contains (needle hay : string) : bool :=
  if String.prefix needle hay then true
  else match hay with
       | EmptyString => false
       | String _ rest => str_contains needle rest
       end.

(** [v == s] for a [str] literal [s]. *)
Definition py_eq_str (v : json) (s : string) : bool :=
  match v with
  | JStr s' => bool_decide (s' = s)
  | _ => false
  end.

(** [o.get(k, dflt)]: only dicts have the method. *)
Definition py_get (o : json) (k : string) (dflt : json) : result json :=
  match o with
  | JObj m => Ok (default dflt (m !! k))
  | _ => Raise AttributeError
  end.

(** The one-character strings a [str] iterates over. *)
Fixpoint str_chars (s : string) : list json :=
  match s with
  | EmptyString => []
  | String c rest => JStr (String c EmptyString) :: str_chars rest
  end.

(** [for x in v]: the elements of a list, the keys of a dict, the characters
    of a string; anything else is not iterable.  The keys come in the order
    of the map, not in insertion order: both evaluators call [.get] on each
    item, which raises on the first key whichever it is. *)
Definition py_iter (v : json) : result (list json) :=
  match v with
  | JList l => Ok l
  | JObj m => Ok (JStr <$> (map_to_list m).*1)
  | JStr s => Ok (str_chars s)
  | JNull | JBool _ | JNum _ => Raise TypeError
  end.

(** [needle in v] for a [str] needle: substring of a string, element of a
    list (by [==]), key of a dict. *)
Definition py_in (needle : string) (v : json) : result bool :=
  match v with
  | JStr hay => Ok (str_contains needle hay)
  | JList l => Ok (existsb (fun x => py_eq_str x needle) l)
  | JObj m => Ok (bool_decide (is_Some (m !! needle)))
  | JNull | JBool _ | JNum _ => Raise TypeError
  end.

(** [o[k]] for a [str] key. *)
Definition py_getitem (o : json) (k : string) : result json :=
  match o with
  | JObj m => match m !! k with Some v => Ok v | None => Raise KeyError end
  | _ => Raise TypeError
  end.

(** ** The trust policy evaluator (lines 53-61) *)

(** The body of the loop for one statement: [Ok true] where the source
    returns [True], [Ok false] where it goes on to the next statement. *)
Definition trust_statement (statement : json) (user_arn : string) : result bool :=
  effect ← py_get statement "Effect" JNull;
  guard ← (if py_eq_str effect "Allow" then py_in "Principal" statement
           else Ok false);
  if guard : bool then
    principal ← py_getitem statement "Principal";
    principal_arns ← py_get principal "AWS" (JList []);
    let principal_arns :=
      match principal_arns with
      | JStr _ => JList [principal_arns]
      | _ => principal_arns
      end in
    py_in user_arn principal_arns
  else Ok false.

Fixpoint trust_loop (statements : list json) (user_arn : string) : result bool :=
  match statements with
  | [] => Ok false
  | statement :: rest =>
      hit ← trust_statement statement user_arn;
      if hit : bool then Ok true else trust_loop rest user_arn
  end.

Definition get_role_permission (policy_document : json) (user_arn : string)
  : result bool :=
  statements ← py_get policy_document "Statement" (JList []);
  statements ← py_iter statements;
  trust_loop statements user_arn.

(** ** The permission policy evaluator (lines 108-112) *)

Definition permission_statement (statement : json) : result bool :=
  effect ← py_get statement "Effect" JNull;
  if py_eq_str effect "Allow" then
    action ← py_get statement "Action" (JList []);
    py_in "sts:AssumeRole" action
  else Ok false.

Fixpoint permission_loop (statements : list json) : result bool :=
  match statements with
  | [] => Ok false
  | statement :: rest =>
      hit ← permission_statement statement;
      if hit : bool then Ok true else permission_loop rest
  end.

Definition policy_allows_assume_role (policy_document : json) : result bool :=
  statements ← py_get policy_document "Statement" (JList []);
  statements ← py_iter statements;
  permission_loop statements.

(** ** The account as seen through boto3 *)

Module Role.
(** An entry of [list_roles]. *)
Record t := { RoleName : string; Arn : string; AssumeRolePolicyDocument : json }.
End Role.

Module Permisive.
(** An entry of [permisive_roles]. *)
Record t := { RoleName : string; RoleArn : string }.
End Permisive.

Module Attached.
(** An entry of [AttachedPolicies]. *)
Record t := { PolicyName : string; PolicyArn : string }.
End Attached.

(** A page of either policy paginator; an absent key is the empty list. *)
Record Page := { PolicyNames : list string; AttachedPolicies : list Attached.t }.

(** The [policy] variable of [check_policies]: a name from [PolicyNames] or
    a dict from [AttachedPolicies]. *)
Inductive policy : Type :=
  | PolicyStr (name : string)
  | PolicyDict (p : Attached.t).

Record Credentials := {
  AccessKeyId : string;
  SecretAccessKey : string;
  SessionToken : string;
  Expiration : string
}.

Inductive paginator : Type := list_role_policies | list_attached_role_policies.

(** The external collaborators.  Every call may raise; a paginator yields
    its pages one at a time, so each page carries its own outcome. *)
Record Service := {
  list_roles : list (result (list Role.t));
  paginate : paginator → string → list (result Page);
  iam_get_role_policy : string → string → result json;
  iam_get_policy : string → result string;
  iam_get_policy_version : string → string → result json;
  sts_assume_role : string → string → Z → result Credentials;
  write_credentials : string → Credentials → result unit
}.

(** What the run leaves behind: console lines and calls made. *)
Inductive event : Type :=
  | Cprint (message color : string)
  | Paginate (op : paginator) (role_name : string)
  | GetRolePolicy (role_name policy_name : string)
  | GetPolicy (policy_arn : string)
  | GetPolicyVersion (policy_arn version_id : string)
  | AssumeRole (role_arn session_name : string)
  | WriteCredentials (profile : string) (creds : Credentials).

(** ** The monad of the stateful code: a trace and an outcome *)

Definition prog (A : Type) : Type := list event * result A.

#[export] Instance prog_ret : MRet prog := fun A a => ([], Ok a).
#[export] Instance prog_bind : MBind prog := fun A B f c =>
  match c.2 with
  | Ok a => let r := f a in (c.1 ++ r.1, r.2)
  | Raise e => (c.1, Raise e)
  end.

Definition emit (e : event) : prog unit := ([e], Ok tt).
Definition call {A} (e : event) (r : result A) : prog A := ([e], r).
Definition lift {A} (r : result A) : prog A := ([], r).
Definition raise {A} (e : exn) : prog A := ([], Raise e).

(** [try: c except Exception as e: h e]; [SystemExit] is not an
    [Exception] and passes through. *)
Definition try_except {A} (c : prog A) (h : exn → prog A) : prog A :=
  match c.2 with
  | Ok a => c
  | Raise (SystemExit n) => c
  | Raise e => let r := h e in (c.1 ++ r.1, r.2)
  end.

(** [try: c except botocore.exceptions.ClientError as e: h ...]. *)
Definition try_except_ClientError {A} (c : prog A)
    (h : string → string → string → prog A) : prog A :=
  match c.2 with
  | Raise (ClientError code op msg) =>
      let r := h code op msg in (c.1 ++ r.1, r.2)
  | _ => c
  end.

Definition nl : string := String (ascii_of_nat 10) EmptyString.

(** [str(e)] inside an f-string; the message of a botocore [ClientError] is
    spelled out, the other exceptions are shown by name. *)
Definition exn_str (e : exn) : string :=
  match e with
  | ClientError code op msg =>
      "An error occurred (" +:+ code +:+ ") when calling the " +:+ op
        +:+ " operation: " +:+ msg
  | OSError msg => msg
  | AttributeError => "AttributeError"
  | TypeError => "TypeError"
  | KeyError => "KeyError"
  | ParamValidationError => "Parameter validation failed"
  | SystemExit _ => "SystemExit"
  end.

(** What [assume_user_role] returns: the credentials, the profile name, or
    [None]. *)
Inductive retval : Type :=
  | RNone
  | RCreds (c : Credentials)
  | RProfile (name : string).

(** Truthiness: the credentials dict is never empty, a string is true when
    it is not empty. *)
Definition truthy (v : retval) : bool :=
  match v with
  | RNone => false
  | RCreds _ => true
  | RProfile name => negb (bool_decide (name = ""))
  end.

(** [s.capitalize()] on ASCII text: first letter upper case, the rest lower. *)
Definition ascii_upper (c : ascii) : ascii :=
  let n := nat_of_ascii c in
  if (97 <=? n)%nat && (n <=? 122)%nat then ascii_of_nat (n - 32) else c.

Definition ascii_lower (c : ascii) : ascii :=
  let n := nat_of_ascii c in
  if (65 <=? n)%nat && (n <=? 90)%nat then ascii_of_nat (n + 32) else c.

Fixpoint str_lower (s : string) : string :=
  match s with
  | EmptyString => EmptyString
  | String c rest => String (ascii_lower c) (str_lower rest)
  end.

Definition capitalize (s : string) : string :=
  match s with
  | EmptyString => EmptyString
  | String c rest => String (ascii_upper c) (str_lower rest)
  end.

(** ** The program *)

(** [page.get('PolicyNames', []) + page.get('AttachedPolicies', [])]: the
    policies of one page, in the order [check_policies] visits them. *)
Definition page_policies (page : Page) : list policy :=
  (PolicyStr <$> PolicyNames page) ++ (PolicyDict <$> AttachedPolicies page).

Section Program.
Variable svc : Service.

(** [roles.extend(page['Roles'])] over the pages of [list_roles]. *)
Fixpoint extend_pages (pages : list (result (list Role.t)))
  : result (list Role.t) :=
  match pages with
  | [] => Ok []
  | Raise e :: _ => Raise e
  | Ok page :: rest => roles ← extend_pages rest; Ok (page ++ roles)
  end.

(** The list comprehension of lines 36-43. *)
Fixpoint permisive_comprehension (roles : list Role.t) (user_arn : string)
  : result (list Permisive.t) :=
  match roles with
  | [] => Ok []
  | role :: rest =>
      keep ← get_role_permission (Role.AssumeRolePolicyDocument role) user_arn;
      permisive_roles ← permisive_comprehension rest user_arn;
      Ok (if keep : bool
          then {| Permisive.RoleName := Role.RoleName role;
                  Permisive.RoleArn := Role.Arn role |} :: permisive_roles
          else permisive_roles)
  end.

Definition get_permisive_roles (user_arn : string) : prog (list Permisive.t) :=
  try_except_ClientError
    (roles ← lift (extend_pages (list_roles svc));
     lift (permisive_comprehension roles user_arn))
    (fun code _ message =>
       if bool_decide (code = "AccessDenied") then
         _ ← emit (Cprint ("Access Denied: " +:+ message) "red");
         raise (SystemExit 1)
       else
         _ ← emit (Cprint ("An unexpected error occurred: " +:+ message) "red");
         raise (SystemExit 1)).

Definition get_role_policy (role_name : string) (policy_name : policy)
  : prog json :=
  match policy_name with
  | PolicyStr name =>
      call (GetRolePolicy role_name name) (iam_get_role_policy svc role_name name)
  | PolicyDict _ => raise ParamValidationError
  end.

Definition get_managed_policy (role_name : string) (policy : policy) : prog json :=
  match policy with
  | PolicyDict p =>
      let policy_arn := Attached.PolicyArn p in
      policy_version ← call (GetPolicy policy_arn) (iam_get_policy svc policy_arn);
      call (GetPolicyVersion policy_arn policy_version)
           (iam_get_policy_version svc policy_arn policy_version)
  | PolicyStr _ => raise TypeError
  end.

(** ['PolicyName' in policy]: a substring test on a name, a key test on a
    dict (which always has the key). *)
Definition PolicyName_in (policy : policy) : bool :=
  match policy with
  | PolicyStr name => str_contains "PolicyName" name
  | PolicyDict _ => true
  end.

(** Lines 92-94: the line printed for a policy that allows assuming a role. *)
Definition policy_report (role_name : string) (policy : policy) : string :=
  let policy_type := if PolicyName_in policy then "inline" else "managed" in
  let policy_name :=
    match policy with
    | PolicyStr name => name
    | PolicyDict p => Attached.PolicyName p
    end in
  capitalize policy_type +:+ " policy '" +:+ policy_name
    +:+ "' in role '" +:+ role_name +:+ "' allows assuming another role.".

(** The inner loop of [check_policies] over the policies of one page. *)
Fixpoint check_page (role_name : string)
    (policy_fetcher : string → policy → prog json)
    (policies : list policy) (role_allows_assume_role : bool) : prog bool :=
  match policies with
  | [] => mret role_allows_assume_role
  | policy :: rest =>
      policy_document ← policy_fetcher role_name policy;
      allows ← lift (policy_allows_assume_role policy_document);
      if allows : bool then
        _ ← emit (Cprint (policy_report role_name policy) "green");
        check_page role_name policy_fetcher rest true
      else check_page role_name policy_fetcher rest role_allows_assume_role
  end.

(** The outer loop of [check_policies] over the pages. *)
Fixpoint check_pages (role_name : string)
    (policy_fetcher : string → policy → prog json)
    (pages : list (result Page)) (role_allows_assume_role : bool) : prog bool :=
  match pages with
  | [] => mret role_allows_assume_role
  | Raise e :: _ => raise e
  | Ok page :: rest =>
      flag ← check_page role_name policy_fetcher (page_policies page)
               role_allows_assume_role;
      check_pages role_name policy_fetcher rest flag
  end.

Definition check_policies (role_name role_arn : string) (paginator : paginator)
    (policy_fetcher : string → policy → prog json) : prog bool :=
  _ ← emit (Paginate paginator role_name);
  check_pages role_name policy_fetcher (paginate svc paginator role_name) false.

Definition assume_user_role (role_name role_arn mode return_profile_name : string)
  : prog retval :=
  try_except
    (role_creds ← call (AssumeRole role_arn role_name)
                    (sts_assume_role svc role_arn role_name 3600);
     if bool_decide (mode = "automated") then
       _ ← call (WriteCredentials return_profile_name role_creds)
             (write_credentials svc return_profile_name role_creds);
       _ ← emit (Cprint ("Temporary credentials saved to profile '"
                           +:+ return_profile_name +:+ "'") "green");
       mret (RProfile return_profile_name)
     else mret (RCreds role_creds))
    (fun e =>
       _ ← emit (Cprint ("Error assuming role " +:+ role_name +:+ ":" +:+ nl
                           +:+ exn_str e) "red");
       mret RNone).

(** The condition of the [if] at lines 72-73; [or] evaluates its right
    operand only when the left one is false. *)
Definition allows_chaining (role_name role_arn : string) : prog bool :=
  inline ← check_policies role_name role_arn list_role_policies get_role_policy;
  if inline : bool then mret true
  else check_policies role_name role_arn list_attached_role_policies get_managed_policy.

(** The [for] loop of [role_chaning_check] with its two local variables,
    then the lines after the loop.  The [return] at line 79 leaves the
    function from inside the loop, so the updates of lines 76-77 are never
    read. *)
Fixpoint role_chaning_loop (permisive_roles : list Permisive.t)
    (mode return_profile_name : string)
    (role_chaining_found : bool) (assumable_roles : list string) : prog retval :=
  match permisive_roles with
  | [] =>
      _ ← (if negb role_chaining_found
           then emit (Cprint "No roles found that allow chaining." "red")
           else emit (Cprint ("Roles that allow chaining: "
                                +:+ String.concat ", " assumable_roles) "green"));
      mret RNone
  | role :: rest =>
      let role_name := Permisive.RoleName role in
      let role_arn := Permisive.RoleArn role in
      found ← allows_chaining role_name role_arn;
      if found : bool then
        role_chain_creds ← assume_user_role role_name role_arn mode return_profile_name;
        _ ← (if truthy role_chain_creds
             then emit (Cprint ("Assumed role credentials from '" +:+ role_name
                                  +:+ "' role:") "green")
             else mret tt);
        mret role_chain_creds
      else role_chaning_loop rest mode return_profile_name
             role_chaining_found assumable_roles
  end.

Definition role_chaning_check (permisive_roles : list Permisive.t)
    (mode return_profile_name : string) : prog retval :=
  role_chaning_loop permisive_roles mode return_profile_name false [].

(** The discovery branch of [main] (lines 165-167): the value it prints. *)
Definition discovery (user_arn return_profile_name : string) : prog retval :=
  permisive_roles ← get_permisive_roles user_arn;
  role_chaning_check permisive_roles "discovery" return_profile_name.

End Program.

(** * Shapes of documents used in the statements below *)

(** A policy document with the given statement list and any other fields. *)
Definition document (fields : gmap string json) (statements : list json) : json :=
  JObj (<["Statement" := JList statements]> fields).

(** A statement object whose [Action], when present, is a string or a list:
    the two forms the policy grammar allows. *)
Definition plain_statement (statement : json) : bool :=
  match statement with
  | JObj m =>
      match m !! "Action" with
      | None | Some (JStr _) | Some (JList _) => true
      | Some _ => false
      end
  | _ => false
  end.

(** A statement object which, when it is an [Allow] statement with a
    [Principal], has a principal map without an ["AWS"] key. *)
Definition principal_without_AWS (statement : json) : bool :=
  match statement with
  | JObj m =>
      if py_eq_str (default JNull (m !! "Effect")) "Allow" then
        match m !! "Principal" with
        | None => true
        | Some (JObj principal) =>
            match principal !! "AWS" with None => true | Some _ => false end
        | Some _ => false
        end
      else true
  | _ => false
  end.

(** The statement [stmt] with its ["Principal"] set to the map [principal]. *)
Definition with_principal (stmt principal : gmap string json) : json :=
  JObj (<["Principal" := JObj principal]> stmt).

(** The action set of a statement as the specification has it: a single
    string is a one-element set. *)
Definition spec_actions (statement : json) : list string :=
  match statement with
  | JObj m =>
      match m !! "Action" with
      | Some (JStr a) => [a]
      | Some (JList l) =>
          omap (fun x => match x with JStr a => Some a | _ => None end) l
      | _ => []
      end
  | _ => []
  end.

(** The specification's [grantsAssumeRole], following its words: some
    statement has effect [Allow] and an action set that contains the literal
    assume-role action or the full wildcard. *)
Definition spec_grantsAssumeRole (statements : list json) : bool :=
  existsb
    (fun statement =>
       match statement with
       | JObj m =>
           py_eq_str (default JNull (m !! "Effect")) "Allow"
           && existsb (fun a => bool_decide (a = "sts:AssumeRole") || bool_decide (a = "*"))
                      (spec_actions statement)
       | _ => false
       end)
    statements.

(** ** Concrete documents *)

Definition allow_all_policy : json :=
  obj [("Version", JStr "2012-10-17");
       ("Statement",
        JList [obj [("Effect", JStr "Allow"); ("Action", JStr "*");
                    ("Resource", JStr "*")]])].

(** [Allow] statements whose actions are wildcard patterns. *)
Definition wildcard_statements : list json :=
  [obj [("Effect", JStr "Allow"); ("Action", JStr "sts:*"); ("Resource", JStr "*")];
   obj [("Effect", JStr "Allow");
        ("Action", JList [JStr "*"; JStr "sts:Assume*"; JStr "sts:AssumeRole*"]);
        ("Resource", JStr "*")];
   obj [("Effect", JStr "Allow"); ("Action", JStr "*"); ("Resource", JStr "*")]].

Definition saml_statements : list json :=
  [obj [("Effect", JStr "Allow"); ("Action", JStr "sts:AssumeRoleWithSAML");
        ("Resource", JStr "*")]].

Definition saml_policy : json :=
  obj [("Version", JStr "2012-10-17"); ("Statement", JList saml_statements)].

Definition saml_policy_list_form : json :=
  obj [("Version", JStr "2012-10-17");
       ("Statement",
        JList [obj [("Effect", JStr "Allow");
                    ("Action", JList [JStr "sts:AssumeRoleWithSAML"]);
                    ("Resource", JStr "*")]])].

Definition star_principal_trust : json :=
  obj [("Version", JStr "2012-10-17");
       ("Statement",
        JList [obj [("Effect", JStr "Allow"); ("Principal", JStr "*");
                    ("Action", JStr "sts:AssumeRole")]])].

Definition allow_without_principal : json :=
  obj [("Statement", JList [obj [("Effect", JStr "Allow")]])].

Definition deny_statement : json :=
  obj [("Effect", JStr "Deny"); ("Action", JStr "iam:*"); ("Resource", JStr "*")].

Definition service_trust_statement : json :=
  obj [("Effect", JStr "Allow");
       ("Principal", obj [("Service", JStr "ec2.amazonaws.com")]);
       ("Action", JStr "sts:AssumeRole")].

(** ** The classifier, read off the program *)

(** A role is offered to [assume_user_role] when the comprehension of
    [get_permisive_roles] keeps it and the condition of lines 72-73 is
    true for it. *)
Definition classified_chainable (svc : Service) (role : Role.t) (user_arn : string)
  : Prop :=
  permisive_comprehension [role] user_arn
    = Ok [{| Permisive.RoleName := Role.RoleName role;
             Permisive.RoleArn := Role.Arn role |}]
  ∧ (allows_chaining svc (Role.RoleName role) (Role.Arn role)).2 = Ok true.

(** The documents behind the pages of a paginator, fetched with the given
    fetcher: the policy snapshot of a role. *)
Fixpoint policy_documents (role_name : string)
    (policy_fetcher : string → policy → prog json)
    (pages : list (result Page)) : result (list json) :=
  match pages with
  | [] => Ok []
  | Raise e :: _ => Raise e
  | Ok page :: rest =>
      here ← mapM (fun p => (policy_fetcher role_name p).2) (page_policies page);
      later ← policy_documents role_name policy_fetcher rest;
      Ok (here ++ later)
  end.


Definition managed_documents (svc : Service) (role_name : string) : result (list json) :=
  policy_documents role_name (get_managed_policy svc)
    (paginate svc list_attached_role_policies role_name).

(** The permission evaluator answers, true or false, on this document. *)
Definition evaluable (policy_document : json) : bool :=
  match policy_allows_assume_role policy_document with
  | Ok _ => true
  | Raise _ => false
  end.


(** ** Concrete accounts *)

Definition alice : string := "arn:aws:iam::111122223333:user/alice".

Definition trusts_alice : json :=
  obj [("Version", JStr "2012-10-17");
       ("Statement",
        JList [obj [("Effect", JStr "Allow");
                    ("Principal", obj [("AWS", JStr alice)]);
                    ("Action", JStr "sts:AssumeRole")]])].

Definition assume_any_policy : json :=
  obj [("Version", JStr "2012-10-17");
       ("Statement",
        JList [obj [("Effect", JStr "Allow"); ("Action", JStr "sts:AssumeRole");
                    ("Resource", JStr "*")]])].

Definition role_A : Role.t :=
  {| Role.RoleName := "A"; Role.Arn := "arn:aws:iam::111122223333:role/A";
     Role.AssumeRolePolicyDocument := trusts_alice |}.

Definition role_B : Role.t :=
  {| Role.RoleName := "B"; Role.Arn := "arn:aws:iam::111122223333:role/B";
     Role.AssumeRolePolicyDocument := trusts_alice |}.

Definition creds_of (session_name : string) : Credentials :=
  {| AccessKeyId := "ASIA" +:+ session_name; SecretAccessKey := "secret";
     SessionToken := "token"; Expiration := "2024-01-01T01:00:00+00:00" |}.

Definition chain_access : Attached.t :=
  {| Attached.PolicyName := "ChainAccess";
     Attached.PolicyArn := "arn:aws:iam::111122223333:policy/ChainAccess" |}.

(** Two roles, both trusting alice, each with one inline policy that allows
    [sts:AssumeRole]; every assume-role call succeeds. *)
Definition two_roles : Service :=
  {| list_roles := [Ok [role_A; role_B]];
     paginate := fun op _ =>
       match op with
       | list_role_policies => [Ok {| PolicyNames := ["AssumeAny"]; AttachedPolicies := [] |}]
       | list_attached_role_policies => [Ok {| PolicyNames := []; AttachedPolicies := [] |}]
       end;
     iam_get_role_policy := fun _ _ => Ok assume_any_policy;
     iam_get_policy := fun _ => Ok "v1";
     iam_get_policy_version := fun _ _ => Ok assume_any_policy;
     sts_assume_role := fun _ session_name _ => Ok (creds_of session_name);
     write_credentials := fun _ _ => Ok tt |}.

(** The same account, where the call that assumes role A is denied. *)
Definition two_roles_A_denied : Service :=
  {| list_roles := list_roles two_roles;
     paginate := paginate two_roles;
     iam_get_role_policy := iam_get_role_policy two_roles;
     iam_get_policy := iam_get_policy two_roles;
     iam_get_policy_version := iam_get_policy_version two_roles;
     sts_assume_role := fun role_arn session_name duration =>
       if bool_decide (role_arn = Role.Arn role_A)
       then Raise (ClientError "AccessDenied" "AssumeRole" "explicit deny")
       else sts_assume_role two_roles role_arn session_name duration;
     write_credentials := write_credentials two_roles |}.

(** One role with a granting inline policy and a granting managed policy. *)
Definition inline_and_managed : Service :=
  {| list_roles := [Ok [role_A]];
     paginate := fun op _ =>
       match op with
       | list_role_policies => [Ok {| PolicyNames := ["AssumeAny"]; AttachedPolicies := [] |}]
       | list_attached_role_policies =>
           [Ok {| PolicyNames := []; AttachedPolicies := [chain_access] |}]
       end;
     iam_get_role_policy := fun _ _ => Ok assume_any_policy;
     iam_get_policy := fun _ => Ok "v1";
     iam_get_policy_version := fun _ _ => Ok assume_any_policy;
     sts_assume_role := fun _ session_name _ => Ok (creds_of session_name);
     write_credentials := fun _ _ => Ok tt |}.

(** ** The policies of a role, read off the account *)









(** * Readings of documents used in the further properties *)

(** A statement object whose principal, when it is an [Allow] statement
    with a [Principal], is a map whose ["AWS"] entry is absent, a string or
    a list. *)
Definition trust_shape (statement : json) : bool :=
  match statement with
  | JObj m =>
      if py_eq_str (default JNull (m !! "Effect")) "Allow" then
        match m !! "Principal" with
        | None => true
        | Some (JObj principal) =>
            match principal !! "AWS" with
            | None | Some (JStr _) | Some (JList _) => true
            | Some _ => false
            end
        | Some _ => false
        end
      else true
  | _ => false
  end.

(** The statement is an [Allow] statement whose ["AWS"] principals are the
    string [user_arn] or a list with that string in it. *)
Definition names_identity (statement : json) (user_arn : string) : Prop :=
  ∃ m principal,
    statement = JObj m
    ∧ m !! "Effect" = Some (JStr "Allow")
    ∧ m !! "Principal" = Some (JObj principal)
    ∧ (principal !! "AWS" = Some (JStr user_arn)
       ∨ ∃ arns, principal !! "AWS" = Some (JList arns) ∧ JStr user_arn ∈ arns).

(** The statement is an [Allow] statement whose [Action] is a string in
    which ["sts:AssumeRole"] occurs, or a list with that very string in it. *)
Definition mentions_assume_role (statement : json) : Prop :=
  ∃ m,
    statement = JObj m
    ∧ m !! "Effect" = Some (JStr "Allow")
    ∧ ((∃ action before after,
          m !! "Action" = Some (JStr action)
          ∧ action = before +:+ "sts:AssumeRole" +:+ after)
       ∨ ∃ actions, m !! "Action" = Some (JList actions)
                    ∧ JStr "sts:AssumeRole" ∈ actions).

(** The trust evaluator answers true on the trust policy of the role. *)
Definition trusted_by (user_arn : string) (role : Role.t) : bool :=
  match get_role_permission (Role.AssumeRolePolicyDocument role) user_arn with
  | Ok b => b
  | Raise _ => false
  end.

(** The trust evaluator answers, true or false, on the trust policy of the
    role. *)
Definition trust_evaluable (user_arn : string) (role : Role.t) : bool :=
  match get_role_permission (Role.AssumeRolePolicyDocument role) user_arn with
  | Ok _ => true
  | Raise _ => false
  end.

Definition permisive_entry (role : Role.t) : Permisive.t :=
  {| Permisive.RoleName := Role.RoleName role; Permisive.RoleArn := Role.Arn role |}.

(** ** Kinds of events *)

Definition is_assume_call (e : event) : bool :=
  match e with AssumeRole _ _ => true | _ => false end.

Definition is_credentials_write (e : event) : bool :=
  match e with WriteCredentials _ _ => true | _ => false end.

(** A call of the managed-policy pass: its paginator or one of the two
    calls of [get_managed_policy]. *)
Definition is_managed_call (e : event) : bool :=
  match e with
  | Paginate list_attached_role_policies _ | GetPolicy _ | GetPolicyVersion _ _ => true
  | _ => false
  end.

(** The closing line of [role_chaning_check] that lists the assumable
    roles (line 84). *)
Definition is_summary_line (e : event) : bool :=
  match e with
  | Cprint message _ => String.prefix "Roles that allow chaining: " message
  | _ => false
  end.

(** The two lines [assume_user_role] can print (lines 130 and 135). *)
Definition assume_error_line (role_name : string) (e : exn) : event :=
  Cprint ("Error assuming role " +:+ role_name +:+ ":" +:+ nl +:+ exn_str e) "red".

Definition saved_line (return_profile_name : string) : event :=
  Cprint ("Temporary credentials saved to profile '" +:+ return_profile_name +:+ "'")
         "green".

(** The exception is [SystemExit], which [except Exception] lets through. *)
Definition is_exit (e : exn) : bool :=
  match e with SystemExit _ => true | _ => false end.

(** The check of lines 72-73 on an entry of [permisive_roles]. *)
Definition role_check (svc : Service) (role : Permisive.t) : prog bool :=
  allows_chaining svc (Permisive.RoleName role) (Permisive.RoleArn role).

(** The number of assume-role calls in a trace. *)
Definition assume_calls (trace : list event) : nat :=
  List.length (List.filter is_assume_call trace).

(** An event that is no assume-role call, no write of credentials and not
    the closing summary line. *)
Definition quiet (e : event) : Prop :=
  is_assume_call e = false ∧ is_credentials_write e = false ∧ is_summary_line e = false.

(** Line 78, printed when the hop returned something true. *)
Definition assumed_line (role_name : string) : event :=
  Cprint ("Assumed role credentials from '" +:+ role_name +:+ "' role:") "green".

(** Line 82. *)
Definition no_roles_line : event :=
  Cprint "No roles found that allow chaining." "red".

(** The traces of the policy checks of the given roles, one after another. *)
Definition checks_trace (svc : Service) (roles : list Permisive.t) : list event :=
  flat_map (fun role => (role_check svc role).1) roles.

(** ** Sessions and the entry point *)

(** A boto3 session: the clients it creates and the identity behind its
    credentials ([Arn], [Account]). *)
Record Session := {
  client : Service;
  sts_get_caller_identity : result (string * string)
}.

(** What [main] finds around it: the profiles that can be opened and the six
    characters that [random.choices] draws. *)
Record Host := {
  boto3_Session : string → result Session;
  random_suffix : string
}.

Module Args.
(** The namespace returned by [parse_args]: [-m] is required and one of the
    two choices, [-p] defaults to ["default"], [-r] may be absent. *)
Record t := { mode : string; profile : string; role : option string }.
End Args.

(** What the whole program emits: the events of the functions above, the
    call [parser.error(message)], and the document handed to
    [print(json.dumps(..., default=convert_datetime, indent=2))]. *)
Inductive output : Type :=
  | Console (e : event)
  | ParserError (message : string)
  | PrintJson (v : retval).

Definition mprog (A : Type) : Type := list output * result A.

#[export] Instance mprog_ret : MRet mprog := fun A a => ([], Ok a).
#[export] Instance mprog_bind : MBind mprog := fun A B f c =>
  match c.2 with
  | Ok a => let r := f a in (c.1 ++ r.1, r.2)
  | Raise e => (c.1, Raise e)
  end.

(** Run a function of the program inside [main]. *)
Definition console {A} (c : prog A) : mprog A := (Console <$> c.1, c.2).

(** [parser.error(message)] reports the message and exits with status 2. *)
Definition parser_error {A} (message : string) : mprog A :=
  ([ParserError message], Raise (SystemExit 2)).

Definition get_session (host : Host) (profile : string) : prog Session :=
  try_except
    (lift (boto3_Session host profile))
    (fun e =>
       _ ← emit (Cprint ("Error creating session with profile " +:+ profile +:+ ":"
                           +:+ nl +:+ exn_str e) "red");
       raise (SystemExit 1)).

Definition authenticate_user (session : Session) : prog (string * string) :=
  try_except
    (response ← lift (sts_get_caller_identity session);
     _ ← emit (Cprint ("Authenticated!" +:+ nl) "green");
     mret response)
    (fun e =>
       _ ← emit (Cprint ("Error authenticating user:" +:+ nl +:+ exn_str e) "red");
       raise (SystemExit 1)).

(** [not args.role]: the option is absent or the empty string. *)
Definition role_missing (role : option string) : bool :=
  match role with
  | None => true
  | Some r => bool_decide (r = "")
  end.

(** [args.role] inside an f-string. *)
Definition role_text (role : option string) : string :=
  match role with
  | None => "None"
  | Some r => r
  end.

Definition main (host : Host) (args : Args.t) : mprog unit :=
  session ← console (get_session host (Args.profile args));
  identity ← console (authenticate_user session);
  let user_arn := identity.1 in
  let account_id := identity.2 in
  let name_prefix := "RoleChainProfile" in
  let return_profile_name := name_prefix +:+ "_" +:+ random_suffix host in
  _ ← (if bool_decide (Args.mode args = "automated") && role_missing (Args.role args)
       then parser_error
              "the following argument is required for automated mode: -r/--role"
       else mret tt);
  if bool_decide (Args.mode args = "discovery") then
    permisive_roles ← console (get_permisive_roles (client session) user_arn);
    role_chain_creds ← console (role_chaning_check (client session) permisive_roles
                                  (Args.mode args) return_profile_name);
    ([PrintJson role_chain_creds], Ok tt)
  else if bool_decide (Args.mode args = "automated") then
    let role_arn := "arn:aws:iam::" +:+ account_id +:+ ":role/"
                      +:+ role_text (Args.role args) in
    _ ← console (assume_user_role (client session) (role_text (Args.role args))
                   role_arn (Args.mode args) return_profile_name);
    mret tt
  else mret tt.

(** The exit status of the process: 0 when [main] returns, the status of a
    [SystemExit], 1 for any other uncaught exception. *)
Definition exit_status (outcome : result unit) : Z :=
  match outcome with
  | Ok _ => 0
  | Raise (SystemExit status) => status
  | Raise _ => 1
  end.

(** The output is a write of credentials. *)
Definition is_output_write (o : output) : bool :=
  match o with
  | Console e => is_credentials_write e
  | _ => false
  end.

(** ** Concrete hosts *)

Definition alice_session : Session :=
  {| client := two_roles;
     sts_get_caller_identity := Ok (alice, "111122223333") |}.

Definition alice_host : Host :=
  {| boto3_Session := fun _ => Ok alice_session; random_suffix := "a1B2c3" |}.

Definition alice_host_A_denied : Host :=
  {| boto3_Session := fun _ =>
       Ok {| client := two_roles_A_denied;
             sts_get_caller_identity := Ok (alice, "111122223333") |};
     random_suffix := "a1B2c3" |}.

Definition no_profile_host : Host :=
  {| boto3_Session := fun _ => Raise (OSError "The config profile (dev) could not be found");
     random_suffix := "a1B2c3" |}.

(** Role listing that is denied on its second page. *)
Definition listing_denied : Service :=
  {| list_roles := [Ok [role_A];
                    Raise (ClientError "AccessDenied" "ListRoles" "not authorized");
                    Ok [role_B]];
     paginate := paginate two_roles;
     iam_get_role_policy := iam_get_role_policy two_roles;
     iam_get_policy := iam_get_policy two_roles;
     iam_get_policy_version := iam_get_policy_version two_roles;
     sts_assume_role := sts_assume_role two_roles;
     write_credentials := write_credentials two_roles |}.

Definition role_star : Role.t :=
  {| Role.RoleName := "Open"; Role.Arn := "arn:aws:iam::111122223333:role/Open";
     Role.AssumeRolePolicyDocument := star_principal_trust |}.

Definition role_service_only : Role.t :=
  {| Role.RoleName := "Ec2"; Role.Arn := "arn:aws:iam::111122223333:role/Ec2";
     Role.AssumeRolePolicyDocument := document ∅ [service_trust_statement] |}.

(** An account whose last role has a bare-string principal. *)
Definition with_star_role : Service :=
  {| list_roles := [Ok [role_A]; Ok [role_service_only; role_star]];
     paginate := paginate two_roles;
     iam_get_role_policy := iam_get_role_policy two_roles;
     iam_get_policy := iam_get_policy two_roles;
     iam_get_policy_version := iam_get_policy_version two_roles;
     sts_assume_role := sts_assume_role two_roles;
     write_credentials := write_credentials two_roles |}.

(** An account where no policy allows the action, and one where fetching
    an inline policy is denied. *)
Definition nothing_granted : Service :=
  {| list_roles := [Ok [role_A; role_B]];
     paginate := paginate two_roles;
     iam_get_role_policy := fun _ _ => Ok (document ∅ [deny_statement]);
     iam_get_policy := iam_get_policy two_roles;
     iam_get_policy_version := fun _ _ => Ok (document ∅ [deny_statement]);
     sts_assume_role := sts_assume_role two_roles;
     write_credentials := write_credentials two_roles |}.

Definition fetch_denied : Service :=
  {| list_roles := [Ok [role_A; role_B]];
     paginate := paginate two_roles;
     iam_get_role_policy := fun _ _ =>
       Raise (ClientError "AccessDenied" "GetRolePolicy" "not authorized");
     iam_get_policy := iam_get_policy two_roles;
     iam_get_policy_version := iam_get_policy_version two_roles;
     sts_assume_role := sts_assume_role two_roles;
     write_credentials := write_credentials two_roles |}.

(** * Properties *)

(** ** Substring search *)

Lemma prefix_iff_append (p s : string) :
  String.prefix p s = true ↔ ∃ rest, s = p +:+ rest.
Proof.
  revert s. induction p as [|c p IH]; intros s; simpl.
  - split; [intros _; exists s; reflexivity | by destruct s].
  - destruct s as [|c' s]; simpl.
    + split; [done | intros [rest Hrest]; discriminate].
    + destruct (Ascii.ascii_dec c c') as [->|Hne].
      * rewrite IH. split; intros [rest Hrest]; exists rest.
        -- by rewrite Hrest.
        -- by injection Hrest.
      * split; [done | intros [rest Hrest]; injection Hrest; congruence].
Qed.

Lemma str_contains_iff (needle hay : string) :
  str_contains needle hay = true ↔ ∃ before after, hay = before +:+ needle +:+ after.
Proof.
  induction hay as [|c hay IH]; cbn [str_contains].
  - destruct (String.prefix needle "") eqn:Hp.
    + split; [intros _ | reflexivity].
      apply prefix_iff_append in Hp as [rest Hrest]. by exists "", rest.
    + split; [discriminate | intros (before & after & Heq)].
      destruct before; [|discriminate]. simpl in Heq.
      assert (String.prefix needle "" = true) by (apply prefix_iff_append; eauto).
      congruence.
  - destruct (String.prefix needle (String c hay)) eqn:Hp.
    + split; [intros _ | reflexivity].
      apply prefix_iff_append in Hp as [rest Hrest]. by exists "", rest.
    + rewrite IH. split.
      * intros (before & after & ->). by exists (String c before), after.
      * intros (before & after & Heq). destruct before as [|c' before].
        -- simpl in Heq.
           assert (String.prefix needle (String c hay) = true)
             by (apply prefix_iff_append; eauto).
           congruence.
        -- injection Heq as _ ->. by exists before, after.
Qed.

(** ** Documents and their statements *)

Lemma get_role_permission_document fields statements user_arn :
  get_role_permission (document fields statements) user_arn
  = trust_loop statements user_arn.
Proof. unfold get_role_permission, document. simpl. by rewrite lookup_insert_eq. Qed.

Lemma policy_allows_assume_role_document fields statements :
  policy_allows_assume_role (document fields statements)
  = permission_loop statements.
Proof. unfold policy_allows_assume_role, document. simpl. by rewrite lookup_insert_eq. Qed.

Lemma trust_loop_congr pre st1 st2 post user_arn :
  trust_statement st1 user_arn = trust_statement st2 user_arn →
  trust_loop (pre ++ st1 :: post) user_arn = trust_loop (pre ++ st2 :: post) user_arn.
Proof.
  intros Heq. induction pre as [|st pre IH]; simpl.
  - by rewrite Heq.
  - destruct (trust_statement st user_arn) as [[]|]; simpl; auto.
Qed.

Lemma existsb_py_eq_str (l : list json) (s : string) :
  existsb (fun x => py_eq_str x s) l = true ↔ JStr s ∈ l.
Proof.
  rewrite existsb_exists. split.
  - intros (x & Hin & Heq). destruct x; simpl in Heq; try done.
    apply bool_decide_eq_true in Heq as ->. by apply list_elem_of_In.
  - intros Hin. exists (JStr s). split; [by apply list_elem_of_In|].
    simpl. by apply bool_decide_eq_true.
Qed.

(** ** The permission evaluator *)

Lemma permission_statement_plain st :
  plain_statement st = true → ∃ b, permission_statement st = Ok b.
Proof.
  destruct st as [| | | |?|m]; try discriminate. intros Hplain.
  unfold permission_statement, plain_statement in *. simpl.
  destruct (py_eq_str _ "Allow"); [|by eexists].
  destruct (m !! "Action") as [[]|]; simpl; try discriminate; by eexists.
Qed.

Lemma permission_loop_hit pre st post :
  forallb plain_statement pre = true →
  permission_statement st = Ok true →
  permission_loop (pre ++ st :: post) = Ok true.
Proof.
  intros Hpre Hst. induction pre as [|st' pre IH]; simpl in *.
  - by rewrite Hst.
  - apply andb_prop in Hpre as [Hst' Hpre].
    destruct (permission_statement_plain _ Hst') as [[] ->]; simpl; auto.
Qed.

Lemma permission_statement_allow_string stmt action :
  stmt !! "Effect" = Some (JStr "Allow") →
  stmt !! "Action" = Some (JStr action) →
  permission_statement (JObj stmt) = Ok (str_contains "sts:AssumeRole" action).
Proof.
  intros HE HA. unfold permission_statement. simpl. by rewrite HE, HA.
Qed.

Lemma permission_statement_allow_list stmt actions :
  stmt !! "Effect" = Some (JStr "Allow") →
  stmt !! "Action" = Some (JList actions) →
  permission_statement (JObj stmt)
  = Ok (existsb (fun x => py_eq_str x "sts:AssumeRole") actions).
Proof.
  intros HE HA. unfold permission_statement. simpl. by rewrite HE, HA.
Qed.

(** C4, as stated, fails: an [Allow] statement whose action is exactly the
    full wildcard does not make the evaluator return true. *)
Lemma full_wildcard_is_not_a_match :
  policy_allows_assume_role allow_all_policy = Ok false
  ∧ policy_allows_assume_role allow_all_policy ≠ Ok true.
Proof. split; [reflexivity | discriminate]. Qed.

(** C7 at the document [saml_policy]: no statement of it grants the
    assume-role action in the specification's sense (its only action is
    ["sts:AssumeRoleWithSAML"]), and the evaluator returns true; with the
    same action written as a one-element list it returns false. *)
Theorem saml_policy_is_reported_as_granting :
  spec_grantsAssumeRole saml_statements = false
  ∧ policy_allows_assume_role saml_policy = Ok true
  ∧ policy_allows_assume_role saml_policy_list_form = Ok false.
Proof. repeat split; reflexivity. Qed.

(** C9: when the [Action] of an [Allow] statement is a single string, the
    evaluator tests whether ["sts:AssumeRole"] occurs in it as a substring:
    a document made of that one statement is answered true exactly when it
    does, and after any plain statements such a statement makes the answer
    true. *)
Theorem string_action_is_substring_test
    (fields : gmap string json) (pre post : list json)
    (stmt : gmap string json) (action : string) :
  forallb plain_statement pre = true →
  stmt !! "Effect" = Some (JStr "Allow") →
  stmt !! "Action" = Some (JStr action) →
  (policy_allows_assume_role (document fields [JObj stmt]) = Ok true
   ↔ ∃ before after, action = before +:+ "sts:AssumeRole" +:+ after)
  ∧ ((∃ before after, action = before +:+ "sts:AssumeRole" +:+ after) →
     policy_allows_assume_role (document fields (pre ++ JObj stmt :: post)) = Ok true).
Proof.
  intros Hpre HE HA. rewrite !policy_allows_assume_role_document.
  pose proof (permission_statement_allow_string _ _ HE HA) as Hst. split.
  - rewrite <- str_contains_iff. simpl. rewrite Hst. simpl.
    destruct (str_contains _ action); split; congruence.
  - intros Hsub%str_contains_iff. apply permission_loop_hit; [done|].
    by rewrite Hst, Hsub.
Qed.

Lemma string_action_is_substring_test_witness :
  (policy_allows_assume_role
     (document ∅
        [JObj (list_to_map [("Effect", JStr "Allow"); ("Action", JStr "xsts:AssumeRolex")])])
   = Ok true
   ↔ ∃ before after, "xsts:AssumeRolex" = before +:+ "sts:AssumeRole" +:+ after)
  ∧ policy_allows_assume_role
      (document ∅
         ([deny_statement]
          ++ JObj (list_to_map [("Effect", JStr "Allow"); ("Action", JStr "xsts:AssumeRolex")])
          :: [])) = Ok true.
Proof.
  destruct (string_action_is_substring_test ∅ [deny_statement] []
              (list_to_map [("Effect", JStr "Allow"); ("Action", JStr "xsts:AssumeRolex")])
              "xsts:AssumeRolex") as [Hiff Hhit].
  - reflexivity.
  - reflexivity.
  - reflexivity.
  - split; [exact Hiff|]. apply Hhit. exists "x", "x". reflexivity.
Defined.

(** ** The trust evaluator *)

(** What the evaluator does with a statement that has a principal map. *)
Lemma trust_statement_with_principal stmt principal user_arn :
  trust_statement (with_principal stmt principal) user_arn
  = if py_eq_str (default JNull (stmt !! "Effect")) "Allow" then
      match default (JList []) (principal !! "AWS") with
      | JStr arn => py_in user_arn (JList [JStr arn])
      | v => py_in user_arn v
      end
    else Ok false.
Proof.
  unfold trust_statement, with_principal. simpl.
  assert (<["Principal":=JObj principal]> stmt !! "Effect" = stmt !! "Effect") as ->
    by by rewrite lookup_insert_ne.
  destruct (py_eq_str _ "Allow"); [|done]. simpl.
  rewrite lookup_insert_eq. simpl.
  by destruct (default (JList []) (principal !! "AWS")).
Qed.

Lemma trust_statement_AWS stmt principal v user_arn :
  trust_statement (with_principal stmt (<["AWS" := v]> principal)) user_arn
  = if py_eq_str (default JNull (stmt !! "Effect")) "Allow" then
      match v with
      | JStr arn => py_in user_arn (JList [JStr arn])
      | v => py_in user_arn v
      end
    else Ok false.
Proof.
  rewrite trust_statement_with_principal, lookup_insert_eq. simpl.
  by destruct v.
Qed.

Lemma trust_loop_without_AWS statements user_arn :
  forallb principal_without_AWS statements = true →
  trust_loop statements user_arn = Ok false.
Proof.
  induction statements as [|st statements IH]; [done|]. simpl.
  intros [Hst Hrest]%andb_prop.
  assert (trust_statement st user_arn = Ok false) as ->; [|simpl; auto].
  destruct st as [| | | |?|m]; try discriminate.
  unfold trust_statement, principal_without_AWS in Hst |- *. simpl.
  destruct (py_eq_str _ "Allow"); [|done]. simpl.
  destruct (m !! "Principal") as [[| | | | |principal]|] eqn:HP;
    try discriminate; simpl; [|done].
  destruct (principal !! "AWS") eqn:HA; [discriminate|].
  reflexivity.
Qed.

(** C6: a principal given as the single string [arn] and as the one-element
    list [[arn]] are evaluated identically, whatever the identity, the other
    fields and the surrounding statements; and a principal given as the
    identity's own string and as any list containing it are evaluated
    identically for that identity. *)
Theorem single_string_principal_is_one_element_list
    (fields : gmap string json) (pre post : list json)
    (stmt principal : gmap string json) (arn user_arn : string) (arns : list json) :
  get_role_permission
    (document fields (pre ++ with_principal stmt (<["AWS" := JStr arn]> principal) :: post))
    user_arn
  = get_role_permission
      (document fields
         (pre ++ with_principal stmt (<["AWS" := JList [JStr arn]]> principal) :: post))
      user_arn
  ∧ (JStr user_arn ∈ arns →
     get_role_permission
       (document fields
          (pre ++ with_principal stmt (<["AWS" := JStr user_arn]> principal) :: post))
       user_arn
     = get_role_permission
         (document fields
            (pre ++ with_principal stmt (<["AWS" := JList arns]> principal) :: post))
         user_arn).
Proof.
  rewrite !get_role_permission_document. split.
  - apply trust_loop_congr. by rewrite !trust_statement_AWS.
  - intros Hin. apply trust_loop_congr. rewrite !trust_statement_AWS.
    destruct (py_eq_str _ "Allow"); [|done]. simpl.
    apply existsb_py_eq_str in Hin. rewrite Hin.
    by rewrite bool_decide_eq_true_2.
Qed.

Lemma single_string_principal_is_one_element_list_witness :
  get_role_permission
    (document ∅
       ([service_trust_statement]
        ++ with_principal {["Effect" := JStr "Allow"]}
             (<["AWS" := JStr "arn:aws:iam::111122223333:user/alice"]> ∅)
        :: []))
    "arn:aws:iam::111122223333:user/alice"
  = get_role_permission
      (document ∅
         ([service_trust_statement]
          ++ with_principal {["Effect" := JStr "Allow"]}
               (<["AWS" := JList [JStr "arn:aws:iam::111122223333:root";
                                  JStr "arn:aws:iam::111122223333:user/alice"]]> ∅)
          :: []))
      "arn:aws:iam::111122223333:user/alice".
Proof.
  apply (single_string_principal_is_one_element_list ∅ [service_trust_statement] []
           {["Effect" := JStr "Allow"]} ∅ ""
           "arn:aws:iam::111122223333:user/alice"
           [JStr "arn:aws:iam::111122223333:root";
            JStr "arn:aws:iam::111122223333:user/alice"]).
  apply list_elem_of_In. simpl. auto.
Defined.

(** C8 at the document [star_principal_trust]: the empty document and
    documents with absent fields are answered false, but a statement whose
    [Principal] is the bare string ["*"] makes the evaluator raise. *)
Theorem bare_string_principal_raises (user_arn : string) :
  get_role_permission (JObj ∅) user_arn = Ok false
  ∧ get_role_permission allow_without_principal user_arn = Ok false
  ∧ get_role_permission star_principal_trust user_arn = Raise AttributeError.
Proof. repeat split; reflexivity. Qed.

(** C10: only the ["AWS"] key of a principal map is read.  A trust policy
    whose [Allow] statements have principal maps without that key is answered
    false for every identity, and changing any other key of a principal map
    never changes the answer. *)
Theorem only_AWS_key_is_inspected
    (fields fields' : gmap string json) (statements pre post : list json)
    (stmt principal : gmap string json) (key : string) (value : json)
    (user_arn : string) :
  forallb principal_without_AWS statements = true →
  key ≠ "AWS" →
  get_role_permission (document fields statements) user_arn = Ok false
  ∧ get_role_permission
      (document fields' (pre ++ with_principal stmt (<[key := value]> principal) :: post))
      user_arn
    = get_role_permission
        (document fields' (pre ++ with_principal stmt principal :: post)) user_arn.
Proof.
  intros Hst Hkey. rewrite !get_role_permission_document. split.
  - by apply trust_loop_without_AWS.
  - apply trust_loop_congr. rewrite !trust_statement_with_principal.
    by rewrite lookup_insert_ne.
Qed.

Lemma only_AWS_key_is_inspected_witness :
  get_role_permission (document ∅ [deny_statement; service_trust_statement])
    "arn:aws:iam::111122223333:user/alice" = Ok false
  ∧ get_role_permission
      (document ∅
         ([] ++ with_principal {["Effect" := JStr "Allow"]}
                  (<["Federated" := JStr "arn:aws:iam::111122223333:user/alice"]> ∅)
          :: []))
      "arn:aws:iam::111122223333:user/alice"
    = get_role_permission
        (document ∅ ([] ++ with_principal {["Effect" := JStr "Allow"]} ∅ :: []))
        "arn:aws:iam::111122223333:user/alice".
Proof.
  apply (only_AWS_key_is_inspected ∅ ∅ [deny_statement; service_trust_statement]
           [] [] {["Effect" := JStr "Allow"]} ∅ "Federated"
           (JStr "arn:aws:iam::111122223333:user/alice")
           "arn:aws:iam::111122223333:user/alice").
  - reflexivity.
  - discriminate.
Defined.


(** ** The monad of the program *)

Lemma prog_bind_outcome {A B} (c : prog A) (f : A → prog B) :
  (prog_bind A B f c).2 = match c.2 with Ok a => (f a).2 | Raise e => Raise e end.
Proof. destruct c as [trace [a|e]]; reflexivity. Qed.

(** Push the projection on the outcome through the binds of a program. *)
Ltac outcome := unfold mbind; rewrite ?prog_bind_outcome; simpl.

Lemma prog_bind_ok {A B} (c : prog A) (f : A → prog B) (a : A) :
  c.2 = Ok a → prog_bind A B f c = (c.1 ++ (f a).1, (f a).2).
Proof. destruct c as [trace [a'|e]]; simpl; [|done]. by intros [= ->]. Qed.

(** ** The classifier *)

Section Classifier.
Variable svc : Service.
Variable role_name : string.
Variable policy_fetcher : string → policy → prog json.


(** X12: Within one page no policy is skipped: every policy whose document
    grants the action gets its line, wherever it stands in the page. *)
Lemma check_page_reports_every_granting_policy policies docs flag i p d :
  mapM (fun p => (policy_fetcher role_name p).2) policies = Ok docs →
  forallb evaluable docs = true →
  policies !! i = Some p →
  docs !! i = Some d →
  policy_allows_assume_role d = Ok true →
  Cprint (policy_report role_name p) "green"
    ∈ (check_page role_name policy_fetcher policies flag).1.
Proof.
  revert docs flag i. induction policies as [|q policies IH]; intros docs flag i.
  - intros _ _ Hp. by rewrite lookup_nil in Hp.
  - cbn [mapM check_page]. unfold mbind.
    destruct (policy_fetcher role_name q).2 as [doc|e] eqn:Hq; [|done]. simpl.
    destruct (mapM _ policies) as [docs'|e] eqn:Hrest; [|done]. simpl.
    intros [= <-]. simpl. unfold evaluable at 1.
    intros [Hdoc Hdocs]%andb_prop Hp Hd Hgrant.
    rewrite (prog_bind_ok _ _ doc Hq). cbn [fst snd].
    destruct (policy_allows_assume_role doc) as [b|] eqn:Hb; [|done].
    rewrite (prog_bind_ok (lift (Ok b)) _ b eq_refl). cbn [fst snd lift].
    destruct i as [|i]; simpl in Hp, Hd.
    + injection Hp as ->. injection Hd as ->.
      assert (b = true) as -> by congruence.
      rewrite (prog_bind_ok (emit _) _ tt eq_refl). cbn [fst snd emit].
      rewrite !elem_of_app. right. right. left. constructor.
    + assert (∀ flag', Cprint (policy_report role_name p) "green"
                ∈ (check_page role_name policy_fetcher policies flag').1) as Hrec
        by (intros flag'; by eapply (IH docs' flag' i)).
      rewrite !elem_of_app. right. right.
      destruct b.
      * rewrite (prog_bind_ok (emit _) _ tt eq_refl). cbn [fst snd emit].
        rewrite elem_of_app. right. apply Hrec.
      * apply Hrec.
Qed.


End Classifier.











(** ** The discovery loop *)

(** Once a role passes the policy check, the roles after it play no part in
    what [role_chaning_check] does or returns. *)
Lemma role_chaning_loop_ignores_rest svc role rest rest' mode profile found assumable :
  (allows_chaining svc (Permisive.RoleName role) (Permisive.RoleArn role)).2 = Ok true →
  role_chaning_loop svc (role :: rest) mode profile found assumable
  = role_chaning_loop svc (role :: rest') mode profile found assumable.
Proof.
  intros Hpass. cbn [role_chaning_loop]. unfold mbind.
  by rewrite !(prog_bind_ok _ _ true Hpass).
Qed.

(** C1 at the account [two_roles]: roles A and B are both classified
    chainable from alice, and discovery examines A, assumes it and returns
    its credentials; B is never examined. *)
Theorem discovery_stops_at_first_chainable_role :
  classified_chainable two_roles role_A alice
  ∧ classified_chainable two_roles role_B alice
  ∧ discovery two_roles alice "RoleChainProfile_a1B2c3"
    = ([Paginate list_role_policies "A";
        GetRolePolicy "A" "AssumeAny";
        Cprint "Managed policy 'AssumeAny' in role 'A' allows assuming another role."
               "green";
        AssumeRole "arn:aws:iam::111122223333:role/A" "A";
        Cprint "Assumed role credentials from 'A' role:" "green"],
       Ok (RCreds (creds_of "A"))).
Proof. repeat split; reflexivity. Qed.

(** C2 at the account [two_roles_A_denied]: role B is classified chainable
    and the call assuming it would succeed, but the denial met on role A
    ends the loop: discovery returns [None] and B is never attempted. *)
Theorem denied_role_ends_discovery :
  classified_chainable two_roles_A_denied role_A alice
  ∧ classified_chainable two_roles_A_denied role_B alice
  ∧ sts_assume_role two_roles_A_denied (Role.Arn role_B) "B" 3600 = Ok (creds_of "B")
  ∧ discovery two_roles_A_denied alice "RoleChainProfile_a1B2c3"
    = ([Paginate list_role_policies "A";
        GetRolePolicy "A" "AssumeAny";
        Cprint "Managed policy 'AssumeAny' in role 'A' allows assuming another role."
               "green";
        AssumeRole "arn:aws:iam::111122223333:role/A" "A";
        Cprint ("Error assuming role A:" +:+ nl
                +:+ "An error occurred (AccessDenied) when calling the AssumeRole operation: explicit deny")
               "red"],
       Ok RNone).
Proof. repeat split; reflexivity. Qed.

(** C3 at the account [inline_and_managed]: the managed policy of role A
    grants the assume-role action and the managed pass on its own reports
    it, but the classifier stops after the inline pass found a granting
    policy: the managed policy is neither fetched nor reported. *)
Theorem granting_inline_policy_skips_managed_pass :
  managed_documents inline_and_managed "A" = Ok [assume_any_policy]
  ∧ policy_allows_assume_role assume_any_policy = Ok true
  ∧ check_policies inline_and_managed "A" "arn:aws:iam::111122223333:role/A"
      list_attached_role_policies (get_managed_policy inline_and_managed)
    = ([Paginate list_attached_role_policies "A";
        GetPolicy "arn:aws:iam::111122223333:policy/ChainAccess";
        GetPolicyVersion "arn:aws:iam::111122223333:policy/ChainAccess" "v1";
        Cprint "Inline policy 'ChainAccess' in role 'A' allows assuming another role."
               "green"],
       Ok true)
  ∧ allows_chaining inline_and_managed "A" "arn:aws:iam::111122223333:role/A"
    = ([Paginate list_role_policies "A";
        GetRolePolicy "A" "AssumeAny";
        Cprint "Managed policy 'AssumeAny' in role 'A' allows assuming another role."
               "green"],
       Ok true).
Proof. repeat split; reflexivity. Qed.

(** * Further properties *)

(** ** The two evaluators on well-formed documents *)

Lemma py_eq_str_true v s : py_eq_str v s = true ↔ v = JStr s.
Proof.
  destruct v; simpl; try (split; [discriminate | by intros [=]]).
  rewrite bool_decide_eq_true. split; [by intros -> | by intros [= ->]].
Qed.

Lemma effect_allow (m : gmap string json) :
  py_eq_str (default JNull (m !! "Effect")) "Allow" = true
  ↔ m !! "Effect" = Some (JStr "Allow").
Proof.
  rewrite py_eq_str_true. destruct (m !! "Effect"); simpl;
    split; (congruence || discriminate).
Qed.

Lemma trust_loop_app l1 l2 user_arn :
  trust_loop (l1 ++ l2) user_arn
  = match trust_loop l1 user_arn with
    | Ok true => Ok true
    | Ok false => trust_loop l2 user_arn
    | Raise e => Raise e
    end.
Proof.
  induction l1 as [|st l1 IH]; simpl; [done|].
  destruct (trust_statement st user_arn) as [[]|]; simpl; auto.
Qed.

Lemma permission_loop_app l1 l2 :
  permission_loop (l1 ++ l2)
  = match permission_loop l1 with
    | Ok true => Ok true
    | Ok false => permission_loop l2
    | Raise e => Raise e
    end.
Proof.
  induction l1 as [|st l1 IH]; simpl; [done|].
  destruct (permission_statement st) as [[]|]; simpl; auto.
Qed.

Lemma trust_loop_exists statements user_arn :
  (∀ st, st ∈ statements → ∃ b, trust_statement st user_arn = Ok b) →
  ∃ b, trust_loop statements user_arn = Ok b
       ∧ (b = true ↔ ∃ st, st ∈ statements ∧ trust_statement st user_arn = Ok true).
Proof.
  induction statements as [|st statements IH]; intros Hall; simpl.
  - exists false. split; [done|]. split; [done|]. intros (st & Hin & _).
    by apply elem_of_nil in Hin.
  - destruct (Hall st) as [b Hb]; [by left|]. rewrite Hb. simpl.
    destruct b.
    + exists true. split; [done|]. split; [|done]. intros _. exists st.
      split; [by left | done].
    + destruct IH as (b & -> & Hiff); [intros st' Hin; apply Hall; by right|].
      exists b. split; [done|]. rewrite Hiff. split.
      * intros (st' & Hin & Hst'). exists st'. split; [by right | done].
      * intros (st' & [->|Hin]%elem_of_cons & Hst'); [congruence|]. eauto.
Qed.

Lemma permission_loop_exists statements :
  (∀ st, st ∈ statements → ∃ b, permission_statement st = Ok b) →
  ∃ b, permission_loop statements = Ok b
       ∧ (b = true ↔ ∃ st, st ∈ statements ∧ permission_statement st = Ok true).
Proof.
  induction statements as [|st statements IH]; intros Hall; simpl.
  - exists false. split; [done|]. split; [done|]. intros (st & Hin & _).
    by apply elem_of_nil in Hin.
  - destruct (Hall st) as [b Hb]; [by left|]. rewrite Hb. simpl.
    destruct b.
    + exists true. split; [done|]. split; [|done]. intros _. exists st.
      split; [by left | done].
    + destruct IH as (b & -> & Hiff); [intros st' Hin; apply Hall; by right|].
      exists b. split; [done|]. rewrite Hiff. split.
      * intros (st' & Hin & Hst'). exists st'. split; [by right | done].
      * intros (st' & [->|Hin]%elem_of_cons & Hst'); [congruence|]. eauto.
Qed.

(** Close a goal from two readings of the same lookup. *)
Ltac same_lookup :=
  repeat match goal with
         | H : JObj _ = JObj _ |- _ => injection H as <-
         | H1 : ?x = Some _, H2 : ?x = Some _ |- _ =>
             rewrite H1 in H2; injection H2 as ?; subst
         | H1 : ?x = None, H2 : ?x = Some _ |- _ => rewrite H1 in H2; discriminate
         | H1 : ?x = Some _, H2 : ?x = None |- _ => rewrite H1 in H2; discriminate
         end;
  try done; try discriminate.

Lemma trust_statement_shaped st user_arn :
  trust_shape st = true →
  ∃ b, trust_statement st user_arn = Ok b ∧ (b = true ↔ names_identity st user_arn).
Proof.
  destruct st as [| | | |?|m]; try discriminate. intros Hshape.
  unfold trust_statement, trust_shape, names_identity in *. simpl.
  destruct (py_eq_str _ "Allow") eqn:HE.
  - apply effect_allow in HE. simpl.
    destruct (m !! "Principal") as [[| | | | |principal]|] eqn:HP;
      try discriminate; simpl.
    + destruct (principal !! "AWS") as [[| | |arn|arns|]|] eqn:HA;
        try discriminate; simpl; eexists; (split; [reflexivity|]).
      * rewrite orb_false_r, bool_decide_eq_true. split.
        -- intros ->. exists m, principal. naive_solver.
        -- intros (m' & principal' & Hm & _ & HP' & [H|(l & H & _)]); same_lookup.
      * rewrite existsb_py_eq_str. split.
        -- intros Hin. exists m, principal. naive_solver.
        -- intros (m' & principal' & Hm & _ & HP' & [H|(l & H & Hin)]); same_lookup.
      * split; [done|].
        intros (m' & principal' & Hm & _ & HP' & [H|(l & H & _)]); same_lookup.
    + exists false. split; [done|]. split; [done|].
      intros (m' & principal' & Hm & _ & HP' & _). same_lookup.
  - exists false. split; [done|]. split; [done|].
    intros (m' & principal' & [= <-] & HE' & _).
    apply effect_allow in HE'. congruence.
Qed.

Lemma permission_statement_plain_iff st :
  plain_statement st = true →
  ∃ b, permission_statement st = Ok b ∧ (b = true ↔ mentions_assume_role st).
Proof.
  destruct st as [| | | |?|m]; try discriminate. intros Hplain.
  unfold permission_statement, plain_statement, mentions_assume_role in *. simpl.
  destruct (py_eq_str _ "Allow") eqn:HE.
  - apply effect_allow in HE.
    destruct (m !! "Action") as [[| | |action|actions|]|] eqn:HA;
      try discriminate; simpl; eexists; (split; [reflexivity|]).
    + rewrite str_contains_iff. split.
      * intros (before & after & ->). exists m. naive_solver.
      * intros (m' & Hm & _ & [(a & before & after & H & ->)|(l & H & _)]);
          same_lookup. eauto.
    + rewrite existsb_py_eq_str. split.
      * intros Hin. exists m. naive_solver.
      * intros (m' & Hm & _ & [(a & before & after & H & _)|(l & H & Hin)]);
          same_lookup.
    + split; [done|].
      intros (m' & Hm & _ & [(a & before & after & H & _)|(l & H & _)]);
        same_lookup.
  - exists false. split; [done|]. split; [done|].
    intros (m' & [= <-] & HE' & _). apply effect_allow in HE'. congruence.
Qed.

(** X1: On a trust policy of well-formed statements the trust evaluator always
    answers, and it answers true exactly when some [Allow] statement names
    the identity among its ["AWS"] principals, by equality of strings. *)
Theorem get_role_permission_characterised
    (fields : gmap string json) (statements : list json) (user_arn : string) :
  forallb trust_shape statements = true →
  ∃ b, get_role_permission (document fields statements) user_arn = Ok b
       ∧ (b = true ↔ ∃ st, st ∈ statements ∧ names_identity st user_arn).
Proof.
  intros Hshape. rewrite get_role_permission_document.
  rewrite forallb_forall in Hshape.
  destruct (trust_loop_exists statements user_arn) as (b & Hb & Hiff).
  - intros st Hin%list_elem_of_In%Hshape.
    destruct (trust_statement_shaped st user_arn Hin) as (b & Hb & _). eauto.
  - exists b. split; [done|]. rewrite Hiff.
    split; intros (st & Hin & Hst); exists st; (split; [done|]);
      pose proof Hin as Hin'%list_elem_of_In%Hshape;
      destruct (trust_statement_shaped st user_arn Hin') as (b' & Hb' & Hiff');
      [apply Hiff'; congruence | apply Hiff' in Hst; congruence].
Qed.

Lemma get_role_permission_characterised_witness :
  ∃ b, get_role_permission (document ∅ [deny_statement; service_trust_statement]) alice
       = Ok b
       ∧ (b = true
          ↔ ∃ st, st ∈ [deny_statement; service_trust_statement]
                  ∧ names_identity st alice).
Proof.
  apply (get_role_permission_characterised ∅
           [deny_statement; service_trust_statement] alice).
  reflexivity.
Defined.

(** X2: On a policy of statements whose [Action] is absent, a string or a list
    the permission evaluator always answers, and it answers true exactly
    when some [Allow] statement has ["sts:AssumeRole"] inside its action
    string or as an element of its action list. *)
Theorem policy_allows_assume_role_characterised
    (fields : gmap string json) (statements : list json) :
  forallb plain_statement statements = true →
  ∃ b, policy_allows_assume_role (document fields statements) = Ok b
       ∧ (b = true ↔ ∃ st, st ∈ statements ∧ mentions_assume_role st).
Proof.
  intros Hplain. rewrite policy_allows_assume_role_document.
  rewrite forallb_forall in Hplain.
  destruct (permission_loop_exists statements) as (b & Hb & Hiff).
  - intros st Hin%list_elem_of_In%Hplain.
    destruct (permission_statement_plain_iff st Hin) as (b & Hb & _). eauto.
  - exists b. split; [done|]. rewrite Hiff.
    split; intros (st & Hin & Hst); exists st; (split; [done|]);
      pose proof Hin as Hin'%list_elem_of_In%Hplain;
      destruct (permission_statement_plain_iff st Hin') as (b' & Hb' & Hiff');
      [apply Hiff'; congruence | apply Hiff' in Hst; congruence].
Qed.

Lemma policy_allows_assume_role_characterised_witness :
  ∃ b, policy_allows_assume_role (document ∅ (deny_statement :: saml_statements)) = Ok b
       ∧ (b = true
          ↔ ∃ st, st ∈ deny_statement :: saml_statements ∧ mentions_assume_role st).
Proof.
  apply (policy_allows_assume_role_characterised ∅ (deny_statement :: saml_statements)).
  reflexivity.
Defined.

(** C4, as the code has it: the permission evaluator returns true for every
    document of plain statements that contains an [Allow] statement whose
    [Action] is the literal ["sts:AssumeRole"] or a list containing it; and
    it expands no wildcard at all: a document of plain statements in which
    no [Allow] statement carries the text ["sts:AssumeRole"] itself, inside
    its action string or as an element of its action list, is answered
    false, whatever patterns such as ["*"], ["sts:*"] or ["sts:Assume*"]
    its actions hold. *)
Theorem literal_action_matches_wildcard_does_not
    (fields fields' : gmap string json) (pre post : list json)
    (stmt : gmap string json) (actions others : list json) :
  forallb plain_statement pre = true →
  stmt !! "Effect" = Some (JStr "Allow") →
  (stmt !! "Action" = Some (JStr "sts:AssumeRole")
   ∨ (stmt !! "Action" = Some (JList actions) ∧ JStr "sts:AssumeRole" ∈ actions)) →
  forallb plain_statement others = true →
  (∀ st, st ∈ others → ¬ mentions_assume_role st) →
  policy_allows_assume_role (document fields (pre ++ JObj stmt :: post)) = Ok true
  ∧ policy_allows_assume_role (document fields' others) = Ok false.
Proof.
  intros Hpre HE HA Hplain Hnone. rewrite !policy_allows_assume_role_document. split.
  - apply permission_loop_hit; [done|].
    destruct HA as [HA|[HA Hin]].
    + by rewrite (permission_statement_allow_string _ _ HE HA).
    + rewrite (permission_statement_allow_list _ _ HE HA).
      f_equal. by apply existsb_py_eq_str.
  - rewrite forallb_forall in Hplain.
    destruct (permission_loop_exists others) as (b & -> & Hiff).
    + intros st Hin%list_elem_of_In%Hplain.
      destruct (permission_statement_plain_iff st Hin) as (b & Hb & _). eauto.
    + destruct b; [|done]. destruct Hiff as [(st & Hin & Hst) _]; [done|].
      pose proof Hin as Hin'%list_elem_of_In%Hplain.
      destruct (permission_statement_plain_iff st Hin') as (b' & Hb' & Hiff').
      destruct (Hnone st Hin). apply Hiff'. congruence.
Qed.

Lemma literal_action_matches_wildcard_does_not_witness :
  policy_allows_assume_role
    (document ∅
       ([deny_statement]
        ++ JObj (list_to_map
                   [("Effect", JStr "Allow");
                    ("Action", JList [JStr "s3:GetObject"; JStr "sts:AssumeRole"])])
        :: [])) = Ok true
  ∧ policy_allows_assume_role (document ∅ wildcard_statements) = Ok false.
Proof.
  apply (literal_action_matches_wildcard_does_not ∅ ∅ [deny_statement] []
           (list_to_map
              [("Effect", JStr "Allow");
               ("Action", JList [JStr "s3:GetObject"; JStr "sts:AssumeRole"])])
           [JStr "s3:GetObject"; JStr "sts:AssumeRole"] wildcard_statements).
  - reflexivity.
  - reflexivity.
  - right. split; [reflexivity|]. apply list_elem_of_In. simpl. auto.
  - reflexivity.
  - intros st Hin Hmentions.
    assert (plain_statement st = true) as Hplain.
    { apply list_elem_of_In in Hin.
      repeat (destruct Hin as [<-|Hin]; [reflexivity|]). destruct Hin. }
    destruct (permission_statement_plain_iff st Hplain) as (b & Hb & Hiff).
    apply Hiff in Hmentions. subst b.
    apply list_elem_of_In in Hin.
    repeat (destruct Hin as [<-|Hin]; [vm_compute in Hb; discriminate|]).
    destruct Hin.
Defined.

Lemma trust_loop_skip pre st post user_arn :
  trust_statement st user_arn = Ok false →
  trust_loop (pre ++ st :: post) user_arn = trust_loop (pre ++ post) user_arn.
Proof.
  intros Hst. rewrite !trust_loop_app. simpl. by rewrite Hst.
Qed.

Lemma permission_loop_skip pre st post :
  permission_statement st = Ok false →
  permission_loop (pre ++ st :: post) = permission_loop (pre ++ post).
Proof.
  intros Hst. rewrite !permission_loop_app. simpl. by rewrite Hst.
Qed.

(** X3: Both evaluators read a statement list from the left and stop at the
    first hit or the first exception: on a concatenation they give what the
    first part gives unless that is false, and then what the second gives. *)
Theorem evaluators_on_concatenation
    (fields : gmap string json) (first second : list json) (user_arn : string) :
  get_role_permission (document fields (first ++ second)) user_arn
  = match get_role_permission (document fields first) user_arn with
    | Ok true => Ok true
    | Ok false => get_role_permission (document fields second) user_arn
    | Raise e => Raise e
    end
  ∧ policy_allows_assume_role (document fields (first ++ second))
    = match policy_allows_assume_role (document fields first) with
      | Ok true => Ok true
      | Ok false => policy_allows_assume_role (document fields second)
      | Raise e => Raise e
      end.
Proof.
  rewrite !get_role_permission_document, !policy_allows_assume_role_document.
  split; [apply trust_loop_app | apply permission_loop_app].
Qed.

(** X4: No [Deny] precedence: a statement object whose [Effect] is anything but
    the string ["Allow"] can be added or removed anywhere without changing
    what either evaluator returns or raises. *)
Theorem statements_without_allow_effect_are_ignored
    (fields : gmap string json) (pre post : list json)
    (stmt : gmap string json) (user_arn : string) :
  stmt !! "Effect" ≠ Some (JStr "Allow") →
  get_role_permission (document fields (pre ++ JObj stmt :: post)) user_arn
  = get_role_permission (document fields (pre ++ post)) user_arn
  ∧ policy_allows_assume_role (document fields (pre ++ JObj stmt :: post))
    = policy_allows_assume_role (document fields (pre ++ post)).
Proof.
  intros HE. rewrite !get_role_permission_document, !policy_allows_assume_role_document.
  assert (py_eq_str (default JNull (stmt !! "Effect")) "Allow" = false) as Hno.
  { destruct (py_eq_str _ "Allow") eqn:H; [|done]. by apply effect_allow in H. }
  split.
  - apply trust_loop_skip. unfold trust_statement. simpl. by rewrite Hno.
  - apply permission_loop_skip. unfold permission_statement. simpl. by rewrite Hno.
Qed.

Lemma statements_without_allow_effect_are_ignored_witness :
  get_role_permission
    (document ∅ ([service_trust_statement]
                 ++ JObj (list_to_map [("Effect", JStr "Deny");
                                       ("Principal", JStr "*");
                                       ("Action", JNull)])
                 :: [])) alice
  = get_role_permission (document ∅ ([service_trust_statement] ++ [])) alice
  ∧ policy_allows_assume_role
      (document ∅ ([service_trust_statement]
                   ++ JObj (list_to_map [("Effect", JStr "Deny");
                                         ("Principal", JStr "*");
                                         ("Action", JNull)])
                   :: []))
    = policy_allows_assume_role (document ∅ ([service_trust_statement] ++ [])).
Proof.
  apply (statements_without_allow_effect_are_ignored ∅ [service_trust_statement] []
           (list_to_map [("Effect", JStr "Deny"); ("Principal", JStr "*");
                         ("Action", JNull)]) alice).
  vm_compute. discriminate.
Defined.

(** X5: Principals are matched by equality of strings only: an ["AWS"]
    principal string other than the identity itself, be it ["*"] or the
    account root, adds nothing; its statement may as well be absent. *)
Theorem other_principal_string_adds_nothing
    (fields : gmap string json) (pre post : list json)
    (stmt principal : gmap string json) (arn user_arn : string) :
  arn ≠ user_arn →
  get_role_permission
    (document fields (pre ++ with_principal stmt (<["AWS" := JStr arn]> principal) :: post))
    user_arn
  = get_role_permission (document fields (pre ++ post)) user_arn.
Proof.
  intros Hne. rewrite !get_role_permission_document. apply trust_loop_skip.
  rewrite trust_statement_AWS. destruct (py_eq_str _ "Allow"); [|done].
  simpl. by rewrite bool_decide_eq_false_2.
Qed.

Lemma other_principal_string_adds_nothing_witness :
  get_role_permission
    (document ∅ ([] ++ with_principal {["Effect" := JStr "Allow"]}
                         (<["AWS" := JStr "*"]> ∅) :: []))
    alice
  = get_role_permission (document ∅ ([] ++ [])) alice.
Proof.
  apply (other_principal_string_adds_nothing ∅ [] [] {["Effect" := JStr "Allow"]} ∅
           "*" alice).
  discriminate.
Defined.

(** X6: A [Statement] that is a single object instead of a list makes both
    evaluators raise [AttributeError] as soon as the object has a key: the
    loop runs over the keys, which are strings without a [.get]. *)
Theorem single_statement_object_raises
    (fields m : gmap string json) (key : string) (value : json) (user_arn : string) :
  m !! key = Some value →
  get_role_permission (JObj (<["Statement" := JObj m]> fields)) user_arn
  = Raise AttributeError
  ∧ policy_allows_assume_role (JObj (<["Statement" := JObj m]> fields))
    = Raise AttributeError.
Proof.
  intros Hkey. unfold get_role_permission, policy_allows_assume_role. simpl.
  rewrite lookup_insert_eq. simpl.
  destruct (map_to_list m) as [|[k v] rest] eqn:Hlist.
  - apply map_to_list_empty_iff in Hlist. subst m. by rewrite lookup_empty in Hkey.
  - done.
Qed.

Lemma single_statement_object_raises_witness :
  get_role_permission
    (JObj (<["Statement" :=
             JObj (list_to_map [("Effect", JStr "Allow");
                                ("Principal", obj [("AWS", JStr alice)]);
                                ("Action", JStr "sts:AssumeRole")])]> ∅)) alice
  = Raise AttributeError
  ∧ policy_allows_assume_role
      (JObj (<["Statement" :=
               JObj (list_to_map [("Effect", JStr "Allow");
                                  ("Principal", obj [("AWS", JStr alice)]);
                                  ("Action", JStr "sts:AssumeRole")])]> ∅))
    = Raise AttributeError.
Proof.
  apply (single_statement_object_raises ∅
           (list_to_map [("Effect", JStr "Allow");
                         ("Principal", obj [("AWS", JStr alice)]);
                         ("Action", JStr "sts:AssumeRole")])
           "Effect" (JStr "Allow") alice).
  reflexivity.
Defined.

(** ** Role enumeration *)

Lemma extend_pages_ok (pages : list (list Role.t)) :
  extend_pages (Ok <$> pages) = Ok (List.concat pages).
Proof.
  induction pages as [|page pages IH]; [done|].
  rewrite fmap_cons. cbn [extend_pages]. by rewrite IH.
Qed.

Lemma extend_pages_raise (pages : list (list Role.t)) e rest :
  extend_pages ((Ok <$> pages) ++ Raise e :: rest) = Raise e.
Proof.
  induction pages as [|page pages IH]; [done|].
  rewrite fmap_cons. cbn [app extend_pages]. by rewrite IH.
Qed.

Lemma permisive_comprehension_filter roles user_arn :
  forallb (trust_evaluable user_arn) roles = true →
  permisive_comprehension roles user_arn
  = Ok (permisive_entry <$> List.filter (trusted_by user_arn) roles).
Proof.
  induction roles as [|role roles IH]; simpl; [done|].
  intros [Hrole Hroles]%andb_prop. rewrite (IH Hroles). simpl.
  unfold trust_evaluable, trusted_by in *.
  destruct (get_role_permission _ user_arn) as [[]|]; done.
Qed.

Lemma trust_statement_raises st user_arn e :
  trust_statement st user_arn = Raise e → e = AttributeError ∨ e = TypeError.
Proof.
  unfold trust_statement.
  destruct st as [| | | |?|m]; simpl; try (intros [= <-]; by left).
  destruct (py_eq_str _ "Allow"); simpl; [|discriminate].
  destruct (m !! "Principal") as [principal|]; simpl; [|discriminate].
  destruct principal as [| | | |?|pm]; simpl; try (intros [= <-]; by left).
  destruct (default (JList []) (pm !! "AWS")); simpl;
    try discriminate; intros [= <-]; by right.
Qed.

Lemma get_role_permission_raises policy_document user_arn e :
  get_role_permission policy_document user_arn = Raise e →
  e = AttributeError ∨ e = TypeError.
Proof.
  unfold get_role_permission.
  destruct policy_document as [| | | |?|m]; simpl; try (intros [= <-]; by left).
  destruct (py_iter _) as [statements|e'] eqn:Hiter; simpl.
  - clear Hiter. induction statements as [|st statements IH]; simpl; [discriminate|].
    destruct (trust_statement st user_arn) as [[]|e'] eqn:Hst; simpl;
      [discriminate | done |].
    intros [= <-]. by eapply trust_statement_raises.
  - intros [= <-]. destruct (default (JList []) (m !! "Statement"));
      simpl in Hiter; try discriminate; injection Hiter as <-; by right.
Qed.

Lemma permisive_comprehension_raises roles role user_arn e :
  role ∈ roles →
  get_role_permission (Role.AssumeRolePolicyDocument role) user_arn = Raise e →
  ∃ e', permisive_comprehension roles user_arn = Raise e'
        ∧ (e' = AttributeError ∨ e' = TypeError).
Proof.
  intros Hin Hraise. induction roles as [|role' roles IH].
  - by apply elem_of_nil in Hin.
  - simpl.
    destruct (get_role_permission (Role.AssumeRolePolicyDocument role') user_arn)
      as [b|e'] eqn:Hrole'; simpl.
    + apply elem_of_cons in Hin as [->|Hin]; [congruence|].
      destruct (IH Hin) as (e'' & -> & He''). simpl. eauto.
    + exists e'. split; [done|]. by eapply get_role_permission_raises.
Qed.

(** X7: When every page of the role listing arrives and every trust policy can
    be evaluated, [get_permisive_roles] prints nothing and returns, in
    listing order across the pages, exactly the roles whose trust policy
    the evaluator answers true on. *)
Theorem get_permisive_roles_keeps_trusted_roles
    (svc : Service) (pages : list (list Role.t)) (user_arn : string) :
  list_roles svc = Ok <$> pages →
  forallb (trust_evaluable user_arn) (List.concat pages) = true →
  get_permisive_roles svc user_arn
  = ([], Ok (permisive_entry <$> List.filter (trusted_by user_arn) (List.concat pages))).
Proof.
  intros Hpages Heval. unfold get_permisive_roles. rewrite Hpages, extend_pages_ok.
  unfold mbind, prog_bind, lift, try_except_ClientError. simpl.
  by rewrite (permisive_comprehension_filter _ _ Heval).
Qed.

Lemma get_permisive_roles_keeps_trusted_roles_witness :
  get_permisive_roles
    {| list_roles := Ok <$> [[role_A]; [role_service_only; role_B]];
       paginate := paginate two_roles;
       iam_get_role_policy := iam_get_role_policy two_roles;
       iam_get_policy := iam_get_policy two_roles;
       iam_get_policy_version := iam_get_policy_version two_roles;
       sts_assume_role := sts_assume_role two_roles;
       write_credentials := write_credentials two_roles |} alice
  = ([], Ok (permisive_entry
               <$> List.filter (trusted_by alice)
                     (List.concat [[role_A]; [role_service_only; role_B]]))).
Proof.
  apply (get_permisive_roles_keeps_trusted_roles _ [[role_A]; [role_service_only; role_B]]
           alice); reflexivity.
Defined.

(** X8: A [ClientError] on any page of the role listing ends the run with exit
    status 1 after one red line, whatever pages came before and whatever the
    error code: the code only selects the wording of the line. *)
Theorem get_permisive_roles_exits_on_client_error
    (svc : Service) (pages : list (list Role.t)) (rest : list (result (list Role.t)))
    (code operation message user_arn : string) :
  list_roles svc = (Ok <$> pages) ++ Raise (ClientError code operation message) :: rest →
  get_permisive_roles svc user_arn
  = ([Cprint ((if bool_decide (code = "AccessDenied")
               then "Access Denied: " else "An unexpected error occurred: ")
              +:+ message) "red"],
     Raise (SystemExit 1)).
Proof.
  intros Hpages. unfold get_permisive_roles. rewrite Hpages, extend_pages_raise.
  unfold mbind, prog_bind, lift, try_except_ClientError. simpl.
  by destruct (bool_decide (code = "AccessDenied")).
Qed.

Lemma get_permisive_roles_exits_on_client_error_witness :
  get_permisive_roles listing_denied alice
  = ([Cprint ((if bool_decide ("AccessDenied" = "AccessDenied")
               then "Access Denied: " else "An unexpected error occurred: ")
              +:+ "not authorized") "red"],
     Raise (SystemExit 1)).
Proof.
  apply (get_permisive_roles_exits_on_client_error listing_denied [[role_A]] [Ok [role_B]]
           "AccessDenied" "ListRoles" "not authorized" alice).
  reflexivity.
Defined.

(** X9: One trust policy the evaluator raises on, anywhere in the listing, makes
    [get_permisive_roles] raise [AttributeError] or [TypeError]: the handler
    for [ClientError] does not catch it, nothing is printed and no role is
    returned. *)
Theorem get_permisive_roles_aborts_on_malformed_trust_policy
    (svc : Service) (pages : list (list Role.t)) (role : Role.t)
    (user_arn : string) (e : exn) :
  list_roles svc = Ok <$> pages →
  role ∈ List.concat pages →
  get_role_permission (Role.AssumeRolePolicyDocument role) user_arn = Raise e →
  ∃ e', get_permisive_roles svc user_arn = ([], Raise e')
        ∧ (e' = AttributeError ∨ e' = TypeError).
Proof.
  intros Hpages Hin Hraise. unfold get_permisive_roles.
  rewrite Hpages, extend_pages_ok.
  destruct (permisive_comprehension_raises _ _ _ _ Hin Hraise) as (e' & He' & Hkind).
  exists e'. split; [|done].
  unfold mbind, prog_bind, lift, try_except_ClientError. simpl. rewrite He'.
  by destruct Hkind as [-> | ->].
Qed.

Lemma get_permisive_roles_aborts_on_malformed_trust_policy_witness :
  ∃ e', get_permisive_roles with_star_role alice = ([], Raise e')
        ∧ (e' = AttributeError ∨ e' = TypeError).
Proof.
  apply (get_permisive_roles_aborts_on_malformed_trust_policy with_star_role
           [[role_A]; [role_service_only; role_star]] role_star alice AttributeError).
  - reflexivity.
  - apply list_elem_of_In. simpl. auto.
  - reflexivity.
Defined.

(** ** One hop *)

(** Every way [assume_user_role] can go. *)
Lemma assume_user_role_cases svc role_name role_arn mode profile :
  let assumed := sts_assume_role svc role_arn role_name 3600 in
  let run := assume_user_role svc role_name role_arn mode profile in
  (∃ c, assumed = Ok c ∧ mode ≠ "automated"
        ∧ run = ([AssumeRole role_arn role_name], Ok (RCreds c)))
  ∨ (∃ c, assumed = Ok c ∧ mode = "automated" ∧ write_credentials svc profile c = Ok tt
          ∧ run = ([AssumeRole role_arn role_name; WriteCredentials profile c;
                    saved_line profile], Ok (RProfile profile)))
  ∨ (∃ c e, assumed = Ok c ∧ mode = "automated"
            ∧ write_credentials svc profile c = Raise e ∧ is_exit e = false
            ∧ run = ([AssumeRole role_arn role_name; WriteCredentials profile c;
                      assume_error_line role_name e], Ok RNone))
  ∨ (∃ c e, assumed = Ok c ∧ mode = "automated"
            ∧ write_credentials svc profile c = Raise e ∧ is_exit e = true
            ∧ run = ([AssumeRole role_arn role_name; WriteCredentials profile c],
                     Raise e))
  ∨ (∃ e, assumed = Raise e ∧ is_exit e = false
          ∧ run = ([AssumeRole role_arn role_name; assume_error_line role_name e],
                   Ok RNone))
  ∨ (∃ e, assumed = Raise e ∧ is_exit e = true
          ∧ run = ([AssumeRole role_arn role_name], Raise e)).
Proof.
  intros assumed run. subst assumed run.
  unfold assume_user_role, try_except, mbind, prog_bind, call, emit,
    assume_error_line, saved_line.
  simpl. destruct (sts_assume_role svc role_arn role_name 3600) as [c|e] eqn:Hcall.
  - simpl. destruct (bool_decide (mode = "automated")) eqn:Hmode.
    + apply bool_decide_eq_true in Hmode. simpl.
      destruct (write_credentials svc profile c) as [[]|e] eqn:Hwrite; simpl.
      * right. left. by exists c.
      * destruct e; simpl;
          first [ right; right; left; eexists c, _; by repeat split
                | right; right; right; left; eexists c, _; by repeat split ].
    + apply bool_decide_eq_false in Hmode. simpl. left. by exists c.
  - simpl. destruct e; simpl;
      first [ do 4 right; left; eexists; by repeat split
            | do 5 right; eexists; by repeat split ].
Qed.

(** X10: [assume_user_role] turns every exception into [None]: unless a
    collaborator raises [SystemExit] it returns, and what it returns is
    [None] exactly when the assume-role call failed or, in automated mode,
    the credentials could not be written. *)
Theorem assume_user_role_absorbs_failures
    (svc : Service) (role_name role_arn mode return_profile_name : string) :
  (∀ status, sts_assume_role svc role_arn role_name 3600 ≠ Raise (SystemExit status)) →
  (∀ c status, write_credentials svc return_profile_name c ≠ Raise (SystemExit status)) →
  ∃ v, (assume_user_role svc role_name role_arn mode return_profile_name).2 = Ok v
       ∧ (v = RNone
          ↔ (∃ e, sts_assume_role svc role_arn role_name 3600 = Raise e)
            ∨ (mode = "automated"
               ∧ ∃ c e, sts_assume_role svc role_arn role_name 3600 = Ok c
                        ∧ write_credentials svc return_profile_name c = Raise e)).
Proof.
  intros Hcall Hwrite.
  destruct (assume_user_role_cases svc role_name role_arn mode return_profile_name)
    as [(c & Hc & Hm & ->)|[(c & Hc & Hm & Hw & ->)|[(c & e & Hc & Hm & Hw & He & ->)|
        [(c & e & Hc & Hm & Hw & He & ->)|[(e & Hc & He & ->)|(e & Hc & He & ->)]]]]];
    simpl.
  - exists (RCreds c). split; [done|]. split; [done|].
    intros [(e & He)|(Hm' & _)]; congruence.
  - exists (RProfile return_profile_name). split; [done|]. split; [done|].
    intros [(e & He)|(_ & c' & e & Hc' & Hw')]; congruence.
  - exists RNone. split; [done|]. split; [|done]. intros _. right. eauto 10.
  - destruct e; try discriminate. by destruct (Hwrite c status).
  - exists RNone. split; [done|]. split; [|done]. intros _. left. eauto.
  - destruct e; try discriminate. by destruct (Hcall status).
Qed.

Lemma assume_user_role_absorbs_failures_witness :
  ∃ v, (assume_user_role two_roles_A_denied "A" (Role.Arn role_A) "discovery" "p").2 = Ok v
       ∧ (v = RNone
          ↔ (∃ e, sts_assume_role two_roles_A_denied (Role.Arn role_A) "A" 3600 = Raise e)
            ∨ ("discovery" = "automated"
               ∧ ∃ c e, sts_assume_role two_roles_A_denied (Role.Arn role_A) "A" 3600 = Ok c
                        ∧ write_credentials two_roles_A_denied "p" c = Raise e)).
Proof.
  apply (assume_user_role_absorbs_failures two_roles_A_denied "A" (Role.Arn role_A)
           "discovery" "p").
  - intros status. vm_compute. discriminate.
  - intros c status. vm_compute. discriminate.
Defined.

(** X11: [assume_user_role] attempts a write of credentials only in automated
    mode and only after its assume-role call has succeeded: in any other
    mode, or when the call fails, nothing is written. *)
Theorem assume_user_role_writes_only_after_success
    (svc : Service) (role_name role_arn mode return_profile_name : string) (e : event) :
  e ∈ (assume_user_role svc role_name role_arn mode return_profile_name).1 →
  is_credentials_write e = true →
  mode = "automated" ∧ ∃ c, sts_assume_role svc role_arn role_name 3600 = Ok c.
Proof.
  destruct (assume_user_role_cases svc role_name role_arn mode return_profile_name)
    as [(c' & Hc & Hm & ->)|[(c' & Hc & Hm & Hw & ->)|[(c' & e' & Hc & Hm & Hw & He & ->)|
        [(c' & e' & Hc & Hm & Hw & He & ->)|[(e' & Hc & He & ->)|(e' & Hc & He & ->)]]]]];
    simpl; unfold saved_line, assume_error_line; intros Hin Hwrite;
    repeat (apply elem_of_cons in Hin as [->|Hin]; [try discriminate Hwrite; eauto|]);
    by apply elem_of_nil in Hin.
Qed.

Lemma assume_user_role_writes_only_after_success_witness :
  "automated" = "automated"
  ∧ ∃ c, sts_assume_role two_roles (Role.Arn role_B) "B" 3600 = Ok c.
Proof.
  apply (assume_user_role_writes_only_after_success two_roles "B" (Role.Arn role_B)
           "automated" "RoleChainProfile_a1B2c3"
           (WriteCredentials "RoleChainProfile_a1B2c3" (creds_of "B"))).
  - vm_compute. apply list_elem_of_In. simpl. auto.
  - reflexivity.
Defined.

(** ** What the policy check leaves in the trace *)

Section TraceInvariant.
Variable P : event → Prop.

Lemma prog_bind_Forall {A B} (c : prog A) (f : A → prog B) :
  Forall P c.1 → (∀ a, Forall P (f a).1) → Forall P (prog_bind A B f c).1.
Proof.
  destruct c as [trace [a|e]]; simpl; [|done].
  intros Hc Hf. apply Forall_app. split; [done | apply Hf].
Qed.

Variable role_name : string.
Variable policy_fetcher : string → policy → prog json.
Hypothesis fetcher_ok : ∀ p, Forall P (policy_fetcher role_name p).1.
Hypothesis report_ok : ∀ p, P (Cprint (policy_report role_name p) "green").

Lemma check_page_Forall policies flag :
  Forall P (check_page role_name policy_fetcher policies flag).1.
Proof.
  revert flag. induction policies as [|p policies IH]; intros flag; [by constructor|].
  cbn [check_page]. unfold mbind. apply prog_bind_Forall; [apply fetcher_ok|].
  intros doc. apply prog_bind_Forall; [by constructor|].
  intros [|]; [|apply IH].
  apply prog_bind_Forall; [|intros _; apply IH].
  constructor; [apply report_ok | constructor].
Qed.

Lemma check_pages_Forall pages flag :
  Forall P (check_pages role_name policy_fetcher pages flag).1.
Proof.
  revert flag. induction pages as [|[page|e] pages IH]; intros flag;
    [by constructor | | by constructor].
  cbn [check_pages]. unfold mbind.
  apply prog_bind_Forall; [apply check_page_Forall | intros flag'; apply IH].
Qed.

Lemma check_policies_Forall svc role_arn op :
  P (Paginate op role_name) →
  Forall P (check_policies svc role_name role_arn op policy_fetcher).1.
Proof.
  intros Hop. unfold check_policies, mbind.
  apply prog_bind_Forall; [by repeat constructor|].
  intros _. apply check_pages_Forall.
Qed.
End TraceInvariant.

Lemma policy_report_is_no_summary role_name p :
  is_summary_line (Cprint (policy_report role_name p) "green") = false.
Proof.
  unfold policy_report. by destruct (PolicyName_in p).
Qed.

Lemma get_role_policy_trace svc role_name p :
  (get_role_policy svc role_name p).1 = []
  ∨ ∃ name, (get_role_policy svc role_name p).1 = [GetRolePolicy role_name name].
Proof. destruct p; simpl; eauto. Qed.

Lemma get_managed_policy_trace svc role_name p :
  ∀ e, e ∈ (get_managed_policy svc role_name p).1 →
       (∃ arn, e = GetPolicy arn) ∨ (∃ arn version, e = GetPolicyVersion arn version).
Proof.
  destruct p as [name|p]; simpl; [intros e H; by apply elem_of_nil in H|].
  unfold mbind, prog_bind, call. simpl.
  destruct (iam_get_policy svc (Attached.PolicyArn p)) as [version|err]; simpl;
    intros e He;
    repeat (apply elem_of_cons in He as [->|He]; [eauto|]);
    by apply elem_of_nil in He.
Qed.

(** The inline pass makes no call of the managed pass. *)
Lemma inline_pass_has_no_managed_call svc role_name role_arn :
  Forall (fun e => is_managed_call e = false)
    (check_policies svc role_name role_arn list_role_policies (get_role_policy svc)).1.
Proof.
  apply check_policies_Forall; [| done | done].
  intros p. destruct (get_role_policy_trace svc role_name p) as [->|(name & ->)];
    by repeat constructor.
Qed.

(** The policy check assumes nothing, writes nothing and never prints the
    summary line. *)
Lemma allows_chaining_quiet svc role_name role_arn :
  Forall quiet (allows_chaining svc role_name role_arn).1.
Proof.
  assert (∀ p, quiet (Cprint (policy_report role_name p) "green")) as Hreport.
  { intros p. repeat split. apply policy_report_is_no_summary. }
  unfold allows_chaining, mbind. apply prog_bind_Forall.
  - apply check_policies_Forall; [| done | done].
    intros p. destruct (get_role_policy_trace svc role_name p) as [->|(name & ->)];
      by repeat constructor.
  - intros [|]; [by constructor|].
    apply check_policies_Forall; [| done | done].
    intros p. apply Forall_forall. intros e He.
    destruct (get_managed_policy_trace svc role_name p e He)
      as [(arn & ->)|(arn & version & ->)]; done.
Qed.

(** In every run [assume_user_role] makes exactly one assume-role call and
    never prints the summary line. *)
Lemma assume_user_role_trace svc role_name role_arn mode profile :
  assume_calls (assume_user_role svc role_name role_arn mode profile).1 = 1
  ∧ Forall (fun e => is_summary_line e = false)
      (assume_user_role svc role_name role_arn mode profile).1
  ∧ (mode ≠ "automated" →
     Forall (fun e => is_credentials_write e = false)
       (assume_user_role svc role_name role_arn mode profile).1).
Proof.
  destruct (assume_user_role_cases svc role_name role_arn mode profile)
    as [(c & Hc & Hm & ->)|[(c & Hc & Hm & Hw & ->)|[(c & e & Hc & Hm & Hw & He & ->)|
        [(c & e & Hc & Hm & Hw & He & ->)|[(e & Hc & He & ->)|(e & Hc & He & ->)]]]]];
    (split; [reflexivity|]); (split; [by repeat constructor|]);
    intros Hmode; try done; by repeat constructor.
Qed.

(** ** The loop over the candidate roles *)

Lemma role_chaning_loop_fail svc role rest mode profile found assumable :
  (role_check svc role).2 = Ok false →
  role_chaning_loop svc (role :: rest) mode profile found assumable
  = ((role_check svc role).1
       ++ (role_chaning_loop svc rest mode profile found assumable).1,
     (role_chaning_loop svc rest mode profile found assumable).2).
Proof.
  intros Hfail. cbn [role_chaning_loop]. unfold mbind.
  by rewrite (prog_bind_ok _ _ false Hfail).
Qed.

Lemma role_chaning_loop_raise svc role rest mode profile found assumable e :
  (role_check svc role).2 = Raise e →
  role_chaning_loop svc (role :: rest) mode profile found assumable
  = ((role_check svc role).1, Raise e).
Proof.
  intros Hraise. cbn [role_chaning_loop]. unfold role_check in Hraise.
  unfold mbind, prog_bind. by rewrite Hraise.
Qed.

Lemma role_chaning_loop_pass svc role rest mode profile found assumable :
  (role_check svc role).2 = Ok true →
  let hop := assume_user_role svc (Permisive.RoleName role) (Permisive.RoleArn role)
               mode profile in
  role_chaning_loop svc (role :: rest) mode profile found assumable
  = ((role_check svc role).1 ++ hop.1
       ++ match hop.2 with
          | Ok v => if truthy v then [assumed_line (Permisive.RoleName role)] else []
          | Raise _ => []
          end,
     hop.2).
Proof.
  intros Hpass hop. cbn [role_chaning_loop]. unfold mbind.
  rewrite (prog_bind_ok _ _ true Hpass). cbv iota. fold hop.
  destruct hop as [trace [v|e]]; simpl; [|by rewrite app_nil_r].
  unfold assumed_line. destruct (truthy v); simpl; by rewrite ?app_nil_r.
Qed.

Lemma role_chaning_loop_skip svc pre rest mode profile found assumable :
  Forall (fun role => (role_check svc role).2 = Ok false) pre →
  role_chaning_loop svc (pre ++ rest) mode profile found assumable
  = (checks_trace svc pre
       ++ (role_chaning_loop svc rest mode profile found assumable).1,
     (role_chaning_loop svc rest mode profile found assumable).2).
Proof.
  induction 1 as [|role pre Hrole Hpre IH].
  - simpl. by destruct (role_chaning_loop svc rest mode profile found assumable).
  - rewrite <- app_comm_cons, (role_chaning_loop_fail _ _ _ _ _ _ _ Hrole), IH.
    unfold checks_trace. cbn [flat_map fst snd]. by rewrite app_assoc.
Qed.

Lemma assume_calls_app t1 t2 :
  assume_calls (t1 ++ t2) = assume_calls t1 + assume_calls t2.
Proof. unfold assume_calls. by rewrite List.filter_app, length_app. Qed.

Lemma assume_calls_quiet t : Forall quiet t → assume_calls t = 0.
Proof.
  unfold assume_calls. induction 1 as [|e t (He & _ & _) _ IH]; simpl; [done|].
  by rewrite He.
Qed.

Lemma checks_trace_quiet svc roles : Forall quiet (checks_trace svc roles).
Proof.
  unfold checks_trace. induction roles as [|role roles IH]; simpl; [constructor|].
  apply Forall_app. split; [apply allows_chaining_quiet | done].
Qed.

(** X15: The first role, in list order, whose policy check does not answer false
    decides the run: when it answers true, [role_chaning_check] returns what
    [assume_user_role] returns for that role, success or [None], and the
    roles after it change nothing. *)
Theorem role_chaning_check_returns_first_passing_role
    (svc : Service) (pre post : list Permisive.t) (role : Permisive.t)
    (mode return_profile_name : string) :
  Forall (fun r => (role_check svc r).2 = Ok false) pre →
  (role_check svc role).2 = Ok true →
  (role_chaning_check svc (pre ++ role :: post) mode return_profile_name).2
  = (assume_user_role svc (Permisive.RoleName role) (Permisive.RoleArn role)
       mode return_profile_name).2
  ∧ role_chaning_check svc (pre ++ role :: post) mode return_profile_name
    = role_chaning_check svc (pre ++ [role]) mode return_profile_name.
Proof.
  intros Hpre Hpass. unfold role_chaning_check.
  rewrite !(role_chaning_loop_skip _ _ _ _ _ _ _ Hpre).
  by rewrite !(role_chaning_loop_pass _ _ _ _ _ _ _ Hpass).
Qed.

Lemma role_chaning_check_returns_first_passing_role_witness :
  (role_chaning_check inline_and_managed
     ([] ++ permisive_entry role_A :: [permisive_entry role_B]) "discovery" "p").2
  = (assume_user_role inline_and_managed "A" (Role.Arn role_A) "discovery" "p").2
  ∧ role_chaning_check inline_and_managed
      ([] ++ permisive_entry role_A :: [permisive_entry role_B]) "discovery" "p"
    = role_chaning_check inline_and_managed ([] ++ [permisive_entry role_A])
        "discovery" "p".
Proof.
  apply (role_chaning_check_returns_first_passing_role inline_and_managed []
           [permisive_entry role_B] (permisive_entry role_A) "discovery" "p").
  - constructor.
  - reflexivity.
Defined.

(** X16: When the policy check answers false for every role, each role is
    checked in turn, no assume-role call is made, the last line printed is
    "No roles found that allow chaining." and the result is [None]; this
    includes the empty role list. *)
Theorem role_chaning_check_without_passing_role
    (svc : Service) (roles : list Permisive.t) (mode return_profile_name : string) :
  Forall (fun r => (role_check svc r).2 = Ok false) roles →
  role_chaning_check svc roles mode return_profile_name
  = (checks_trace svc roles ++ [no_roles_line], Ok RNone)
  ∧ assume_calls (role_chaning_check svc roles mode return_profile_name).1 = 0.
Proof.
  intros Hfail. unfold role_chaning_check.
  rewrite <- (app_nil_r roles) at 1 3.
  rewrite (role_chaning_loop_skip _ _ _ _ _ _ _ Hfail). simpl.
  split; [done|].
  rewrite assume_calls_app, (assume_calls_quiet _ (checks_trace_quiet svc roles)).
  reflexivity.
Qed.

Lemma role_chaning_check_without_passing_role_witness :
  role_chaning_check nothing_granted [permisive_entry role_A; permisive_entry role_B]
    "discovery" "p"
  = (checks_trace nothing_granted [permisive_entry role_A; permisive_entry role_B]
       ++ [no_roles_line], Ok RNone)
  ∧ assume_calls
      (role_chaning_check nothing_granted
         [permisive_entry role_A; permisive_entry role_B] "discovery" "p").1 = 0.
Proof.
  apply (role_chaning_check_without_passing_role nothing_granted
           [permisive_entry role_A; permisive_entry role_B] "discovery" "p").
  repeat constructor.
Defined.

(** X17: An exception met while listing or fetching the policies of a role is
    not handled: it leaves [role_chaning_check] as it is, the roles after it
    are not examined and no assume-role call is made. *)
Theorem role_chaning_check_propagates_fetch_errors
    (svc : Service) (pre post : list Permisive.t) (role : Permisive.t)
    (mode return_profile_name : string) (e : exn) :
  Forall (fun r => (role_check svc r).2 = Ok false) pre →
  (role_check svc role).2 = Raise e →
  role_chaning_check svc (pre ++ role :: post) mode return_profile_name
  = (checks_trace svc (pre ++ [role]), Raise e)
  ∧ assume_calls (role_chaning_check svc (pre ++ role :: post) mode return_profile_name).1
    = 0.
Proof.
  intros Hpre Hraise. unfold role_chaning_check.
  rewrite (role_chaning_loop_skip _ _ _ _ _ _ _ Hpre).
  rewrite (role_chaning_loop_raise _ _ _ _ _ _ _ _ Hraise). simpl.
  assert (checks_trace svc pre ++ (role_check svc role).1 = checks_trace svc (pre ++ [role]))
    as ->.
  { unfold checks_trace. rewrite flat_map_app. simpl. by rewrite app_nil_r. }
  split; [done|]. apply assume_calls_quiet, checks_trace_quiet.
Qed.

Lemma role_chaning_check_propagates_fetch_errors_witness :
  role_chaning_check fetch_denied ([] ++ permisive_entry role_A :: [permisive_entry role_B])
    "discovery" "p"
  = (checks_trace fetch_denied ([] ++ [permisive_entry role_A]),
     Raise (ClientError "AccessDenied" "GetRolePolicy" "not authorized"))
  ∧ assume_calls
      (role_chaning_check fetch_denied
         ([] ++ permisive_entry role_A :: [permisive_entry role_B]) "discovery" "p").1
    = 0.
Proof.
  apply (role_chaning_check_propagates_fetch_errors fetch_denied []
           [permisive_entry role_B] (permisive_entry role_A) "discovery" "p").
  - constructor.
  - reflexivity.
Defined.

Lemma quiet_no_summary t :
  Forall quiet t → Forall (fun e => is_summary_line e = false) t.
Proof. intros Hq. eapply Forall_impl; [exact Hq|]. intros e He. apply He. Qed.

Lemma quiet_no_write t :
  Forall quiet t → Forall (fun e => is_credentials_write e = false) t.
Proof. intros Hq. eapply Forall_impl; [exact Hq|]. intros e He. apply He. Qed.

Lemma role_chaning_loop_trace svc roles mode profile assumable :
  (assume_calls (role_chaning_loop svc roles mode profile false assumable).1 ≤ 1)%nat
  ∧ Forall (fun e => is_summary_line e = false)
      (role_chaning_loop svc roles mode profile false assumable).1
  ∧ (mode ≠ "automated" →
     Forall (fun e => is_credentials_write e = false)
       (role_chaning_loop svc roles mode profile false assumable).1).
Proof.
  induction roles as [|role roles (IHn & IHs & IHw)].
  - simpl. repeat split;
      [unfold assume_calls; simpl; lia | by repeat constructor | by repeat constructor].
  - pose proof (allows_chaining_quiet svc (Permisive.RoleName role)
                  (Permisive.RoleArn role)) as Hquiet.
    fold (role_check svc role) in Hquiet.
    destruct (role_check svc role).2 as [[|]|e] eqn:Hcheck.
    + rewrite (role_chaning_loop_pass _ _ _ _ _ _ _ Hcheck).
      destruct (assume_user_role_trace svc (Permisive.RoleName role)
                  (Permisive.RoleArn role) mode profile) as (Hone & Hs & Hw).
      cbn [fst]. set (tail := match _ with Ok _ => _ | Raise _ => _ end).
      assert (Forall quiet tail) as Htail.
      { subst tail. destruct (_ : result retval) as [v|]; [destruct (truthy v)|];
          by repeat constructor. }
      repeat split.
      * rewrite !assume_calls_app, Hone, !assume_calls_quiet by done. lia.
      * rewrite !Forall_app. repeat split; [| done |]; by apply quiet_no_summary.
      * intros Hmode. rewrite !Forall_app.
        repeat split; [| by apply Hw |]; by apply quiet_no_write.
    + rewrite (role_chaning_loop_fail _ _ _ _ _ _ _ Hcheck). cbn [fst].
      repeat split.
      * rewrite assume_calls_app, assume_calls_quiet by done. lia.
      * apply Forall_app. split; [by apply quiet_no_summary | done].
      * intros Hmode. apply Forall_app. split; [by apply quiet_no_write | by apply IHw].
    + rewrite (role_chaning_loop_raise _ _ _ _ _ _ _ _ Hcheck). cbn [fst].
      repeat split.
      * rewrite assume_calls_quiet by done. lia.
      * by apply quiet_no_summary.
      * intros _. by apply quiet_no_write.
Qed.

(** X18: Whatever the account and the role list, one call of
    [role_chaning_check] makes at most one assume-role call. *)
Theorem role_chaning_check_assumes_at_most_once
    (svc : Service) (roles : list Permisive.t) (mode return_profile_name : string) :
  (assume_calls (role_chaning_check svc roles mode return_profile_name).1 ≤ 1)%nat.
Proof. apply role_chaning_loop_trace. Qed.

(** X19: The closing line "Roles that allow chaining: ..." of line 84 is never
    printed, in any colour and for any list of names. *)
Theorem role_chaning_check_never_prints_summary
    (svc : Service) (roles : list Permisive.t) (mode return_profile_name : string)
    (names color : string) :
  Cprint ("Roles that allow chaining: " +:+ names) color
    ∉ (role_chaning_check svc roles mode return_profile_name).1.
Proof.
  intros Hin.
  destruct (role_chaning_loop_trace svc roles mode return_profile_name [])
    as (_ & Hsummary & _).
  rewrite Forall_forall in Hsummary. apply Hsummary in Hin. simpl in Hin.
  assert (String.prefix "Roles that allow chaining: "
            ("Roles that allow chaining: " +:+ names) = true) as Hprefix
    by (apply prefix_iff_append; eauto).
  simpl in Hprefix. congruence.
Qed.

(** X20: Outside automated mode [role_chaning_check] never writes credentials. *)
Theorem role_chaning_check_writes_nothing_in_discovery
    (svc : Service) (roles : list Permisive.t) (mode return_profile_name : string)
    (profile : string) (c : Credentials) :
  mode ≠ "automated" →
  WriteCredentials profile c
    ∉ (role_chaning_check svc roles mode return_profile_name).1.
Proof.
  intros Hmode Hin.
  destruct (role_chaning_loop_trace svc roles mode return_profile_name [])
    as (_ & _ & Hwrite).
  specialize (Hwrite Hmode). rewrite Forall_forall in Hwrite.
  by apply Hwrite in Hin.
Qed.

Lemma role_chaning_check_writes_nothing_in_discovery_witness :
  WriteCredentials "p" (creds_of "A")
    ∉ (role_chaning_check two_roles [permisive_entry role_A; permisive_entry role_B]
         "discovery" "p").1.
Proof.
  apply (role_chaning_check_writes_nothing_in_discovery two_roles
           [permisive_entry role_A; permisive_entry role_B] "discovery" "p" "p"
           (creds_of "A")).
  discriminate.
Defined.

(** ** The policy check *)

(** X13: The report line names the kind of a policy the wrong way round: a name
    from [PolicyNames], an inline policy, is reported as "Managed policy"
    unless the name itself contains "PolicyName", and an entry of
    [AttachedPolicies], a managed policy, is always reported as "Inline
    policy". *)
Theorem policy_report_labels (role_name name : string) (p : Attached.t) :
  (∀ before after, name ≠ before +:+ "PolicyName" +:+ after) →
  policy_report role_name (PolicyStr name)
  = "Managed policy '" +:+ name +:+ "' in role '" +:+ role_name
      +:+ "' allows assuming another role."
  ∧ policy_report role_name (PolicyDict p)
    = "Inline policy '" +:+ Attached.PolicyName p +:+ "' in role '" +:+ role_name
        +:+ "' allows assuming another role.".
Proof.
  intros Hname. split; [|reflexivity].
  unfold policy_report, PolicyName_in.
  destruct (str_contains "PolicyName" name) eqn:Hsub; [|reflexivity].
  apply str_contains_iff in Hsub as (before & after & Heq). by destruct (Hname before after).
Qed.

Lemma policy_report_labels_witness :
  policy_report "A" (PolicyStr "AssumeAny")
  = "Managed policy '" +:+ "AssumeAny" +:+ "' in role '" +:+ "A"
      +:+ "' allows assuming another role."
  ∧ policy_report "A" (PolicyDict chain_access)
    = "Inline policy '" +:+ Attached.PolicyName chain_access +:+ "' in role '" +:+ "A"
        +:+ "' allows assuming another role.".
Proof.
  apply (policy_report_labels "A" "AssumeAny" chain_access).
  intros before after Heq.
  assert (str_contains "PolicyName" "AssumeAny" = true) as Hsub
    by (apply str_contains_iff; eauto).
  vm_compute in Hsub. discriminate.
Defined.

(** X14: Once the inline pass answers true the managed pass is not run at all:
    the policy check is the inline pass alone and its trace holds no call
    of the managed-policy paginator, of [get_policy] or of
    [get_policy_version]. *)
Theorem inline_grant_suppresses_managed_calls
    (svc : Service) (role_name role_arn : string) :
  (check_policies svc role_name role_arn list_role_policies (get_role_policy svc)).2
  = Ok true →
  allows_chaining svc role_name role_arn
  = ((check_policies svc role_name role_arn list_role_policies (get_role_policy svc)).1,
     Ok true)
  ∧ Forall (fun e => is_managed_call e = false) (allows_chaining svc role_name role_arn).1.
Proof.
  intros Hinline.
  assert (allows_chaining svc role_name role_arn
          = ((check_policies svc role_name role_arn list_role_policies
                (get_role_policy svc)).1, Ok true)) as ->.
  { unfold allows_chaining, mbind. rewrite (prog_bind_ok _ _ true Hinline).
    simpl. by rewrite app_nil_r. }
  split; [done|]. apply inline_pass_has_no_managed_call.
Qed.

Lemma inline_grant_suppresses_managed_calls_witness :
  allows_chaining inline_and_managed "A" (Role.Arn role_A)
  = ((check_policies inline_and_managed "A" (Role.Arn role_A) list_role_policies
        (get_role_policy inline_and_managed)).1, Ok true)
  ∧ Forall (fun e => is_managed_call e = false)
      (allows_chaining inline_and_managed "A" (Role.Arn role_A)).1.
Proof.
  apply (inline_grant_suppresses_managed_calls inline_and_managed "A" (Role.Arn role_A)).
  reflexivity.
Defined.

(** ** The entry point *)

Lemma mprog_bind_ok {A B} (c : mprog A) (f : A → mprog B) (a : A) :
  c.2 = Ok a → mprog_bind A B f c = (c.1 ++ (f a).1, (f a).2).
Proof. destruct c as [trace [a'|e]]; simpl; [|done]. by intros [= ->]. Qed.

Lemma mprog_bind_raise {A B} (c : mprog A) (f : A → mprog B) (e : exn) :
  c.2 = Raise e → mprog_bind A B f c = (c.1, Raise e).
Proof. destruct c as [trace [a'|e']]; simpl; [done|]. by intros [= ->]. Qed.

Lemma get_session_ok host profile session :
  boto3_Session host profile = Ok session →
  get_session host profile = ([], Ok session).
Proof. intros H. unfold get_session, try_except, lift. simpl. by rewrite H. Qed.

Lemma get_session_fails host profile e :
  boto3_Session host profile = Raise e → is_exit e = false →
  get_session host profile
  = ([Cprint ("Error creating session with profile " +:+ profile +:+ ":" +:+ nl
              +:+ exn_str e) "red"], Raise (SystemExit 1)).
Proof.
  intros H He. unfold get_session, try_except, lift. simpl. rewrite H.
  by destruct e.
Qed.

Lemma authenticate_user_ok session identity :
  sts_get_caller_identity session = Ok identity →
  authenticate_user session = ([Cprint ("Authenticated!" +:+ nl) "green"], Ok identity).
Proof.
  intros H. unfold authenticate_user, try_except, lift, mbind, prog_bind. simpl.
  by rewrite H.
Qed.

Lemma authenticate_user_fails session e :
  sts_get_caller_identity session = Raise e → is_exit e = false →
  authenticate_user session
  = ([Cprint ("Error authenticating user:" +:+ nl +:+ exn_str e) "red"],
     Raise (SystemExit 1)).
Proof.
  intros H He. unfold authenticate_user, try_except, lift, mbind, prog_bind. simpl.
  rewrite H. by destruct e.
Qed.

(** X21: When the profile cannot be opened or the caller identity cannot be
    obtained, the program prints one red line, does nothing else and exits
    with status 1, whatever the mode. *)
Theorem main_exits_1_without_identity (host : Host) (args : Args.t) (e : exn) :
  is_exit e = false →
  boto3_Session host (Args.profile args) = Raise e
  ∨ (∃ session, boto3_Session host (Args.profile args) = Ok session
                ∧ sts_get_caller_identity session = Raise e) →
  exit_status (main host args).2 = 1%Z
  ∧ ∃ line, (main host args).1 = [Console (Cprint line "red")].
Proof.
  intros He [Hs|(session & Hs & Ha)]; unfold main, mbind.
  - rewrite (mprog_bind_raise _ _ (SystemExit 1));
      [|unfold console; by rewrite (get_session_fails _ _ _ Hs He)].
    unfold console. rewrite (get_session_fails _ _ _ Hs He). simpl. eauto.
  - rewrite (mprog_bind_ok _ _ session);
      [|unfold console; by rewrite (get_session_ok _ _ _ Hs)].
    rewrite (mprog_bind_raise _ _ (SystemExit 1));
      [|unfold console; by rewrite (authenticate_user_fails _ _ Ha He)].
    unfold console.
    rewrite (get_session_ok _ _ _ Hs), (authenticate_user_fails _ _ Ha He). simpl. eauto.
Qed.

Lemma main_exits_1_without_identity_witness :
  exit_status
    (main no_profile_host
       {| Args.mode := "discovery"; Args.profile := "dev"; Args.role := None |}).2 = 1%Z
  ∧ ∃ line,
      (main no_profile_host
         {| Args.mode := "discovery"; Args.profile := "dev"; Args.role := None |}).1
      = [Console (Cprint line "red")].
Proof.
  apply (main_exits_1_without_identity no_profile_host
           {| Args.mode := "discovery"; Args.profile := "dev"; Args.role := None |}
           (OSError "The config profile (dev) could not be found")).
  - reflexivity.
  - left. reflexivity.
Defined.

(** X22: In automated mode a missing or empty [-r] is rejected only after the
    session has been opened and the caller authenticated: the program prints
    "Authenticated!", then calls [parser.error] and exits with status 2,
    without any assume-role call. *)
Theorem main_checks_role_after_authenticating
    (host : Host) (args : Args.t) (session : Session) (identity : string * string) :
  boto3_Session host (Args.profile args) = Ok session →
  sts_get_caller_identity session = Ok identity →
  Args.mode args = "automated" →
  role_missing (Args.role args) = true →
  main host args
  = ([Console (Cprint ("Authenticated!" +:+ nl) "green");
      ParserError "the following argument is required for automated mode: -r/--role"],
     Raise (SystemExit 2)).
Proof.
  intros Hs Ha Hmode Hrole. unfold main, mbind.
  rewrite (mprog_bind_ok _ _ session);
    [|unfold console; by rewrite (get_session_ok _ _ _ Hs)].
  rewrite (mprog_bind_ok _ _ identity);
    [|unfold console; by rewrite (authenticate_user_ok _ _ Ha)].
  unfold console. rewrite (get_session_ok _ _ _ Hs), (authenticate_user_ok _ _ Ha).
  rewrite Hmode, Hrole. reflexivity.
Qed.

Lemma main_checks_role_after_authenticating_witness :
  main alice_host {| Args.mode := "automated"; Args.profile := "default";
                     Args.role := Some "" |}
  = ([Console (Cprint ("Authenticated!" +:+ nl) "green");
      ParserError "the following argument is required for automated mode: -r/--role"],
     Raise (SystemExit 2)).
Proof.
  apply (main_checks_role_after_authenticating alice_host
           {| Args.mode := "automated"; Args.profile := "default"; Args.role := Some "" |}
           alice_session (alice, "111122223333")); reflexivity.
Defined.

(** X23: In automated mode with a role name, the program assumes the role
    [arn:aws:iam::<account>:role/<name>] of the caller's own account, with
    the role name as session name and the profile [RoleChainProfile_<suffix>],
    and does nothing else; whenever that hop returns, even with [None]
    after a denial, the exit status is 0. *)
Theorem main_automated_assumes_named_role
    (host : Host) (args : Args.t) (session : Session)
    (user_arn account_id role : string) :
  boto3_Session host (Args.profile args) = Ok session →
  sts_get_caller_identity session = Ok (user_arn, account_id) →
  Args.mode args = "automated" →
  Args.role args = Some role →
  role ≠ "" →
  let hop := assume_user_role (client session) role
               ("arn:aws:iam::" +:+ account_id +:+ ":role/" +:+ role) "automated"
               ("RoleChainProfile_" +:+ random_suffix host) in
  (main host args).1
  = Console (Cprint ("Authenticated!" +:+ nl) "green") :: (Console <$> hop.1)
  ∧ (∀ v, hop.2 = Ok v → exit_status (main host args).2 = 0%Z).
Proof.
  intros Hs Ha Hmode Hrole Hne hop. unfold main, mbind.
  rewrite (mprog_bind_ok _ _ session);
    [|unfold console; by rewrite (get_session_ok _ _ _ Hs)].
  rewrite (mprog_bind_ok _ _ (user_arn, account_id));
    [|unfold console; by rewrite (authenticate_user_ok _ _ Ha)].
  unfold console. rewrite (get_session_ok _ _ _ Hs), (authenticate_user_ok _ _ Ha).
  rewrite Hmode, Hrole. simpl.
  rewrite (bool_decide_eq_false_2 (role = "")) by done. simpl. subst hop.
  change ("RoleChainProfile" +:+ "_" +:+ random_suffix host)
    with ("RoleChainProfile_" +:+ random_suffix host).
  destruct (assume_user_role _ _ _ _ _) as [trace [v|e]]; simpl.
  - by rewrite app_nil_r.
  - split; [done|]. intros v [=].
Qed.

Lemma main_automated_assumes_named_role_witness :
  (main alice_host_A_denied
     {| Args.mode := "automated"; Args.profile := "default"; Args.role := Some "A" |}).1
  = Console (Cprint ("Authenticated!" +:+ nl) "green")
      :: (Console
            <$> (assume_user_role two_roles_A_denied "A"
                   ("arn:aws:iam::" +:+ "111122223333" +:+ ":role/" +:+ "A") "automated"
                   ("RoleChainProfile_" +:+ random_suffix alice_host_A_denied)).1)
  ∧ exit_status
      (main alice_host_A_denied
         {| Args.mode := "automated"; Args.profile := "default"; Args.role := Some "A" |}).2
    = 0%Z.
Proof.
  destruct (main_automated_assumes_named_role alice_host_A_denied
              {| Args.mode := "automated"; Args.profile := "default"; Args.role := Some "A" |}
              {| client := two_roles_A_denied;
                 sts_get_caller_identity := Ok (alice, "111122223333") |}
              alice "111122223333" "A") as [Htrace Hexit];
    try reflexivity; try discriminate.
  split; [exact Htrace|]. apply (Hexit RNone). reflexivity.
Defined.

Lemma mprog_bind_Forall (P : output → Prop) {A B} (c : mprog A) (f : A → mprog B) :
  Forall P c.1 → (∀ a, Forall P (f a).1) → Forall P (mprog_bind A B f c).1.
Proof.
  destruct c as [trace [a|e]]; simpl; [|done].
  intros Hc Hf. apply Forall_app. split; [done | apply Hf].
Qed.

Lemma console_no_write {A} (c : prog A) :
  Forall (fun e => is_credentials_write e = false) c.1 →
  Forall (fun o => is_output_write o = false) (console c).1.
Proof. unfold console. simpl. intros H. by apply Forall_fmap. Qed.

Lemma get_session_no_write host profile :
  Forall (fun e => is_credentials_write e = false) (get_session host profile).1.
Proof.
  unfold get_session, try_except, lift. simpl.
  destruct (boto3_Session host profile) as [|[]]; simpl; by repeat constructor.
Qed.

Lemma authenticate_user_no_write session :
  Forall (fun e => is_credentials_write e = false) (authenticate_user session).1.
Proof.
  unfold authenticate_user, try_except, lift, mbind, prog_bind. simpl.
  destruct (sts_get_caller_identity session) as [|[]]; simpl; by repeat constructor.
Qed.

Lemma get_permisive_roles_no_write svc user_arn :
  Forall (fun e => is_credentials_write e = false) (get_permisive_roles svc user_arn).1.
Proof.
  unfold get_permisive_roles, try_except_ClientError, lift, mbind, prog_bind. simpl.
  destruct (extend_pages (list_roles svc)) as [roles|e]; simpl.
  - destruct (permisive_comprehension roles user_arn) as [|[]]; simpl;
      try destruct (bool_decide _); by repeat constructor.
  - destruct e; simpl; try destruct (bool_decide _); by repeat constructor.
Qed.

(** X24: A discovery run never writes credentials, whatever the account holds
    and however the run ends. *)
Theorem main_discovery_writes_no_credentials
    (host : Host) (args : Args.t) (profile : string) (c : Credentials) :
  Args.mode args = "discovery" →
  Console (WriteCredentials profile c) ∉ (main host args).1.
Proof.
  intros Hmode Hin.
  assert (Forall (fun o => is_output_write o = false) (main host args).1) as Hall.
  { unfold main, mbind. rewrite Hmode. simpl.
    apply mprog_bind_Forall; [apply console_no_write, get_session_no_write|].
    intros session.
    apply mprog_bind_Forall; [apply console_no_write, authenticate_user_no_write|].
    intros identity. apply mprog_bind_Forall; [by constructor|]. intros _.
    apply mprog_bind_Forall; [apply console_no_write, get_permisive_roles_no_write|].
    intros roles. apply mprog_bind_Forall; [|intros v; by repeat constructor].
    apply console_no_write.
    destruct (role_chaning_loop_trace (client session) roles "discovery"
                ("RoleChainProfile" +:+ "_" +:+ random_suffix host) [])
      as (_ & _ & Hwrite).
    by apply Hwrite. }
  rewrite Forall_forall in Hall. by apply Hall in Hin.
Qed.

Lemma main_discovery_writes_no_credentials_witness :
  Console (WriteCredentials "RoleChainProfile_a1B2c3" (creds_of "A"))
    ∉ (main alice_host
         {| Args.mode := "discovery"; Args.profile := "default"; Args.role := None |}).1.
Proof.
  apply (main_discovery_writes_no_credentials alice_host
           {| Args.mode := "discovery"; Args.profile := "default"; Args.role := None |}
           "RoleChainProfile_a1B2c3" (creds_of "A")).
  reflexivity.
Defined.

(** ** Further instances *)

Lemma check_page_reports_every_granting_policy_witness :
  Cprint (policy_report "A" (PolicyStr "AssumeAny")) "green"
    ∈ (check_page "A" (get_role_policy inline_and_managed)
         [PolicyStr "Other"; PolicyStr "AssumeAny"] false).1.
Proof.
  apply (check_page_reports_every_granting_policy "A" (get_role_policy inline_and_managed)
           [PolicyStr "Other"; PolicyStr "AssumeAny"]
           [assume_any_policy; assume_any_policy] false 1 (PolicyStr "AssumeAny")
           assume_any_policy); reflexivity.
Defined.

Lemma role_chaning_check_never_prints_summary_witness :
  Cprint ("Roles that allow chaining: " +:+ "A") "green"
    ∉ (role_chaning_check two_roles [permisive_entry role_A; permisive_entry role_B]
         "discovery" "p").1.
Proof.
  apply (role_chaning_check_never_prints_summary two_roles
           [permisive_entry role_A; permisive_entry role_B] "discovery" "p" "A" "green").
Defined.
